(** * Streaming conversation session manager: identity, breaker, history store

    A shallow embedding of the session core of the chat front end:
    - [useUserConfig] and [useUserId] (hooks/useUserConfig.tsx),
    - [ProtectedRoute] (Auth/ProtectedRoute.tsx),
    - [threadConfig] and [onThreadId] of [Chat] (components/Chat.tsx),
    - the [ChatError] component with its repeated-error breaker and
      [handleRetry],
    - the [useChatHistory] hook,
    - [login], [logout] and [verifyToken] (Auth/AuthContext.tsx),
    - [addThreadToRedisSession] of the registry client.

    React state is passed explicitly; an effect is a function from the values
    of its dependencies and the state before to the state after.  What a hook
    reads from the environment (the clock, the locale date, the outcome of a
    network call, whether a storage write is accepted) is an argument. *)

From Stdlib Require Import List String Ascii Bool Arith ZArith Lia.
From Stdlib Require Import Permutation Sorted.
Import ListNotations.

Local Open Scope string_scope.
Local Open Scope list_scope.

(** ** JavaScript strings

    A string is a sequence of code units; the model keeps the code units
    below 256 (one [ascii] each), read as Latin-1.  Text literals of the
    source that lie outside that range are kept as their bytes: they are only
    ever compared for equality or displayed. *)
Module JS.

(** [!!s] for a string. *)
Definition truthy (s : string) : bool :=
  match s with
  | EmptyString => false
  | String _ _ => true
  end.

(** [!!s] for a value that may be [undefined] / [null]. *)
Definition truthy_opt (o : option string) : bool :=
  match o with
  | Some s => truthy s
  | None => false
  end.

(** WhiteSpace and LineTerminator code units below 256:
    TAB, LF, VT, FF, CR, SP, NBSP. *)
Definition isWhiteSpace (c : ascii) : bool :=
  let n := nat_of_ascii c in
  (((9 <=? n) && (n <=? 13)) || (n =? 32) || (n =? 160))%nat.

Fixpoint trimStart (s : string) : string :=
  match s with
  | EmptyString => EmptyString
  | String c r => if isWhiteSpace c then trimStart r else s
  end.

Fixpoint trimEnd (s : string) : string :=
  match s with
  | EmptyString => EmptyString
  | String c r =>
      match trimEnd r with
      | EmptyString => if isWhiteSpace c then EmptyString else String c EmptyString
      | r' => String c r'
      end
  end.

(** [String.prototype.trim]. *)
Definition trim (s : string) : string := trimEnd (trimStart s).

(** Lower-case mapping of one code unit: A-Z, and the Latin-1 capitals
    0xC0-0xDE except the multiplication sign 0xD7. *)
Definition lowerChar (c : ascii) : ascii :=
  let n := nat_of_ascii c in
  if (((65 <=? n) && (n <=? 90))
      || ((192 <=? n) && (n <=? 222) && negb (n =? 215)))%nat
  then ascii_of_nat (n + 32)
  else c.

(** [String.prototype.toLowerCase]. *)
Fixpoint toLowerCase (s : string) : string :=
  match s with
  | EmptyString => EmptyString
  | String c r => String (lowerChar c) (toLowerCase r)
  end.

(** [s.slice(0, n)]. *)
Fixpoint slice0 (n : nat) (s : string) : string :=
  match n, s with
  | S n', String c r => String c (slice0 n' r)
  | _, _ => EmptyString
  end.

(** Canonicalisation used by a regular expression with the [i] flag and
    without the [u] flag: two code units match when their upper-case
    forms agree; on the letters of an ASCII pattern that is agreement of
    the lower-case forms of ASCII letters only. *)
Definition asciiLower (c : ascii) : ascii :=
  let n := nat_of_ascii c in
  if ((65 <=? n) && (n <=? 90))%nat then ascii_of_nat (n + 32) else c.

(** Does [pat] (an ASCII literal) match at the start of [s], ignoring case? *)
Fixpoint matchesAt (pat s : string) : bool :=
  match pat, s with
  | EmptyString, _ => true
  | String p pat', String c s' =>
      Ascii.eqb (asciiLower p) (asciiLower c) && matchesAt pat' s'
  | String _ _, EmptyString => false
  end.

(** [s.replace(/pat/gi, "")] for a literal pattern: one left-to-right
    pass; a match is dropped and the scan resumes after it.  [skip] counts
    the code units of the current match still to be dropped. *)
Fixpoint removeAllFrom (pat : string) (skip : nat) (s : string) : string :=
  match s with
  | EmptyString => EmptyString
  | String c r =>
      match skip with
      | S k => removeAllFrom pat k r
      | O =>
          if matchesAt pat s
          then removeAllFrom pat (String.length pat - 1) r
          else String c (removeAllFrom pat 0 r)
      end
  end.

Definition removeAll (pat s : string) : string :=
  match pat with
  | EmptyString => s
  | _ => removeAllFrom pat 0 s
  end.

End JS.

(** ** Authentication state (Auth/AuthContext.tsx) *)

Record User := mkUser {
  user_id : string;
  username : string;
  email : option string
}.

(** The state of [AuthProvider]. *)
Record AuthState := mkAuth {
  user : option User;
  token : option string;
  loading : bool
}.

(** [isAuthenticated: !!user && !!token]. *)
Definition isAuthenticated (a : AuthState) : bool :=
  match user a with
  | Some _ => JS.truthy_opt (token a)
  | None => false
  end.

(** [user?.user_id]. *)
Definition user_id_of (a : AuthState) : option string :=
  option_map user_id (user a).

(** ** Identity context resolver (hooks/useUserConfig.tsx) *)

Record UserConfig := mkConfig { cfg_user_id : string }.

(** [useUserConfig]: [None] is [undefined], [Some c] is
    [{ configurable: c }]. *)
Definition useUserConfig (a : AuthState) : option UserConfig :=
  if loading a then None
  else if negb (isAuthenticated a) || negb (JS.truthy_opt (user_id_of a)) then None
  else
    match user a with
    | None => None
    | Some u =>
        let userId := JS.trim (user_id u) in
        if negb (JS.truthy userId)
           || String.eqb (JS.toLowerCase userId) "anonymous"
        then None
        else Some (mkConfig userId)
    end.

(** [useUserId]. *)
Definition useUserId (a : AuthState) : option string :=
  if negb (isAuthenticated a) || negb (JS.truthy_opt (user_id_of a)) then None
  else user_id_of a.

(** ** Route guard and stream configuration
       (Auth/ProtectedRoute.tsx, components/Chat.tsx) *)

Inductive Screen := LoaderScreen | LoginScreen | ChildrenScreen.

(** [ProtectedRoute]: what is rendered in place of the guarded views. *)
Definition ProtectedRoute (a : AuthState) : Screen :=
  if loading a then LoaderScreen
  else if negb (isAuthenticated a) then LoginScreen
  else ChildrenScreen.

(** [threadConfig] of [Chat]: [None] is [undefined]. *)
Definition threadConfig (a : AuthState) : option UserConfig :=
  let userConfig := useUserConfig a in
  if match userConfig with
     | Some c => JS.truthy (cfg_user_id c)
     | None => false
     end
  then userConfig
  else if loading a then None
  else if negb (isAuthenticated a) || negb (JS.truthy_opt (user_id_of a)) then None
  else option_map mkConfig (user_id_of a).

(** The options [Chat] hands to [useStream]. *)
Record StreamOptions := mkStreamOptions {
  so_threadId : option string;
  so_configurable : option UserConfig
}.

(** The [useStream] calls made when the route for a thread is rendered:
    [Chat] lives under [ProtectedRoute], and calls the hook once with
    [threadId: threadId === undefined ? null : threadId] and
    [configurable: threadConfig?.configurable]. *)
Definition chatStreamCalls (a : AuthState) (routeThreadId : option string)
  : list StreamOptions :=
  match ProtectedRoute a with
  | ChildrenScreen => [mkStreamOptions routeThreadId (threadConfig a)]
  | _ => []
  end.

(** ** Error view with repetition breaker (ChatError component) *)

(** [thread.error] is untyped: an object carrying [message] (with
    [String(message)] as its text), or a string. *)
Inductive StreamError :=
| ErrObject (message : string)
| ErrValue (shown : string).

(** What [ChatError] reads from the stream and the settings. *)
Record StreamView := mkStreamView {
  thread_error : option StreamError;
  isLoading : bool;
  debugMode : bool
}.

(** [!!thread?.error]: an object is truthy, a string when non-empty. *)
Definition error_truthy (v : StreamView) : bool :=
  match thread_error v with
  | Some (ErrObject _) => true
  | Some (ErrValue s) => JS.truthy s
  | None => false
  end.

(** [errorMessage]. *)
Definition errorMessage (v : StreamView) : string :=
  match thread_error v with
  | Some (ErrObject m) => m
  | Some (ErrValue s) => if JS.truthy s then s else ""
  | None => ""
  end.

Record ErrorRecord := mkErrorRecord {
  error : string;
  timestamp : Z
}.

(** [errorHistoryRef], [repeatedError], [shouldStop]. *)
Record BreakerState := mkBreaker {
  errorHistory : list ErrorRecord;
  repeatedError : option string;
  shouldStop : bool
}.

Definition initialBreaker : BreakerState := mkBreaker [] None false.

(** [a.slice(-n)]. *)
Definition sliceLast {A} (n : nat) (l : list A) : list A :=
  skipn (List.length l - n) l.

(** The first effect of [ChatError], run with the clock reading [now]. *)
Definition recordErrorEffect (now : Z) (v : StreamView) (st : BreakerState)
  : BreakerState :=
  if negb (JS.truthy (errorMessage v)) || isLoading v then st
  else
    let pushed := errorHistory st ++ [mkErrorRecord (errorMessage v) now] in
    let history := sliceLast 5 pushed in
    if (3 <=? List.length history)%nat then
      let lastThree := sliceLast 3 history in
      let allSame :=
        forallb (fun err => String.eqb (error err) (errorMessage v)) lastThree in
      if allSame && negb (debugMode v)
      then mkBreaker history (Some (errorMessage v)) true
      else mkBreaker history None false
    else mkBreaker history (repeatedError st) (shouldStop st).

(** The second effect of [ChatError]. *)
Definition resetEffect (v : StreamView) (st : BreakerState) : BreakerState :=
  if negb (error_truthy v) && negb (isLoading v)
  then mkBreaker [] None false
  else st.

(** What [ChatError] renders. *)
Inductive ErrorView :=
| NoView
| FinalView (heading detail footer : string)
| PlainView (prefix detail : string)
| RetryView (label : string).

Definition finalHeading : string :=
  "Критическая ошибка: повторяющаяся ошибка обнаружена 3 раза подряд".
Definition finalFooter : string :=
  "Выполнение остановлено. Включите режим отладки для детальной информации.".
Definition plainPrefix : string := "Произошла ошибка: ".
Definition retryLabel : string := "В чате произошла ошибка".

Definition renderChatError (v : StreamView) (st : BreakerState) : ErrorView :=
  if negb (error_truthy v) || isLoading v then NoView
  else if shouldStop st && JS.truthy_opt (repeatedError st) && negb (debugMode v)
  then FinalView finalHeading
         (match repeatedError st with Some e => e | None => "" end)
         finalFooter
  else if negb (debugMode v) then PlainView plainPrefix (errorMessage v)
  else RetryView retryLabel.

(** The text nodes of a view, in document order. *)
Definition viewText (w : ErrorView) : list string :=
  match w with
  | NoView => []
  | FinalView h d f => [h; d; f]
  | PlainView p d => [p; d]
  | RetryView l => [l]
  end.

(** Does the view carry the retry button ([RefreshButton])? *)
Definition hasRetry (w : ErrorView) : bool :=
  match w with
  | RetryView _ => true
  | _ => false
  end.

(** What a click on the retry button does. *)
Inductive RetryOutcome :=
| RetryRejected (logged : string)
| RetrySubmitted (configurable : UserConfig).

Definition retryNotAuthenticated : string :=
  "Невозможно повторить отправку: пользователь не аутентифицирован".
Definition retryInvalidUser : string :=
  "Невозможно повторить отправку: невалидный user_id".

(** [handleRetry]. *)
Definition handleRetry (a : AuthState) : RetryOutcome :=
  match useUserId a with
  | None => RetryRejected retryNotAuthenticated
  | Some userId =>
      if negb (isAuthenticated a) || negb (JS.truthy userId)
      then RetryRejected retryNotAuthenticated
      else
        let configurable :=
          match useUserConfig a with
          | Some c => c
          | None => mkConfig userId
          end in
        if negb (JS.truthy (cfg_user_id configurable))
           || String.eqb (JS.toLowerCase (JS.trim (cfg_user_id configurable)))
                         "anonymous"
        then RetryRejected retryInvalidUser
        else RetrySubmitted configurable
  end.

(** ** Chat history store (hooks/useChatHistory) *)

Record SavedChat := mkChat {
  threadId : string;
  title : string;
  createdAt : Z;
  updatedAt : Z;
  firstMessage : option string
}.

Definition MAX_CHATS : nat := 50.
Arguments MAX_CHATS : simpl never.

(** The three keys of [localStorage] the session core uses.  The chat
    history is kept parsed: [JSON.stringify] followed by [JSON.parse] gives
    back the same records. *)
Record LocalStorage := mkStorage {
  ls_auth_token : option string;
  ls_auth_user : option User;
  ls_chat_history : option (list SavedChat)
}.

(** The authentication provider, the durable storage, and the [chats] state
    of one instance of the [useChatHistory] hook. *)
Record Browser := mkBrowser {
  auth : AuthState;
  storage : LocalStorage;
  chats : list SavedChat
}.

(** What one call reads from its environment: [Date.now()], the text of
    [new Date().toLocaleDateString("ru-RU")], and whether
    [localStorage.setItem] succeeds (it throws when the quota is exceeded). *)
Record CallEnv := mkEnv {
  now : Z;
  today : string;
  storageAccepts : bool
}.

(** [Array.prototype.sort] with the comparator
    [(a, b) => b.updatedAt - a.updatedAt].  The sort is stable: an element
    moves behind a later one only when the comparator is positive, that is
    when the later one has the strictly larger [updatedAt]. *)
Fixpoint insertByUpdated (x : SavedChat) (l : list SavedChat) : list SavedChat :=
  match l with
  | [] => [x]
  | y :: l' =>
      if (updatedAt x <? updatedAt y)%Z
      then y :: insertByUpdated x l'
      else x :: l
  end.

Definition sortByUpdated (l : list SavedChat) : list SavedChat :=
  fold_right insertByUpdated [] l.

(** [a.findIndex(p)]; [None] is [-1]. *)
Fixpoint findIndex {A} (p : A -> bool) (l : list A) : option nat :=
  match l with
  | [] => None
  | x :: l' => if p x then Some 0 else option_map S (findIndex p l')
  end.

(** [a[i] = x] on a copy, for an index within the array. *)
Fixpoint setAt {A} (i : nat) (x : A) (l : list A) : list A :=
  match l, i with
  | [], _ => []
  | _ :: l', 0 => x :: l'
  | y :: l', S i' => y :: setAt i' x l'
  end.

(** [cleanMessage]. *)
Definition cleanMessage (text : string) : string :=
  JS.trim (JS.removeAll "</task>" (JS.removeAll "<task>" text)).

Definition placeholderTitle (today : string) : string :=
  ("Чат " ++ today)%string.

(** [x && x.trim()] as a condition, for an optional string. *)
Definition nonBlank (o : option string) : bool :=
  match o with
  | Some s => JS.truthy s && JS.truthy (JS.trim s)
  | None => false
  end.

Definition orEmpty (o : option string) : string :=
  match o with
  | Some s => s
  | None => ""
  end.

(** The [title] computed at the start of [saveChat]. *)
Definition saveChatTitle (today : string)
    (firstMessage customTitle : option string) : string :=
  if nonBlank customTitle then JS.slice0 100 (JS.trim (orEmpty customTitle))
  else if nonBlank firstMessage then
    let cleaned := cleanMessage (orEmpty firstMessage) in
    if JS.truthy (JS.slice0 100 cleaned)
    then JS.slice0 100 cleaned
    else placeholderTitle today
  else placeholderTitle today.

(** [newChats] of [saveChat] after [newChats.sort(...)]. *)
Definition saveChatSorted (env : CallEnv) (tid : string)
    (firstMsg customTitle : option string) (prevChats : list SavedChat)
  : list SavedChat :=
  let ttl := saveChatTitle (today env) firstMsg customTitle in
  let newChats :=
    match findIndex (fun chat => String.eqb (threadId chat) tid) prevChats with
    | Some existingIndex =>
        match nth_error prevChats existingIndex with
        | Some old =>
            setAt existingIndex
              (mkChat (threadId old) ttl (createdAt old) (now env)
                 (if JS.truthy_opt firstMsg then firstMsg else firstMessage old))
              prevChats
        | None => prevChats
        end
    | None => mkChat tid ttl (now env) (now env) firstMsg :: prevChats
    end in
  sortByUpdated newChats.

(** [newChats] of [deleteChat]. *)
Definition deleteChatList (tid : string) (prevChats : list SavedChat)
  : list SavedChat :=
  filter (fun chat => negb (String.eqb (threadId chat) tid)) prevChats.

(** [newChats] of [updateChatTitle] after the sort. *)
Definition updateChatTitleSorted (env : CallEnv) (tid ttl : string)
    (prevChats : list SavedChat) : list SavedChat :=
  sortByUpdated
    (map (fun chat =>
            if String.eqb (threadId chat) tid
            then mkChat (threadId chat) ttl (createdAt chat) (now env)
                   (firstMessage chat)
            else chat)
         prevChats).

(** The common tail of the three updaters: write
    [newChats.slice(0, MAX_CHATS)] to the storage inside [try], and return
    the same slice as the next state. *)
Definition commitChats (env : CallEnv) (newChats : list SavedChat)
    (b : Browser) : Browser :=
  let limited := firstn MAX_CHATS newChats in
  mkBrowser (auth b)
    (if storageAccepts env
     then mkStorage (ls_auth_token (storage b)) (ls_auth_user (storage b))
            (Some limited)
     else storage b)
    limited.

Definition saveChat (env : CallEnv) (tid : string)
    (firstMsg customTitle : option string) (b : Browser) : Browser :=
  commitChats env (saveChatSorted env tid firstMsg customTitle (chats b)) b.

Definition deleteChat (env : CallEnv) (tid : string) (b : Browser) : Browser :=
  commitChats env (deleteChatList tid (chats b)) b.

Definition updateChatTitle (env : CallEnv) (tid ttl : string) (b : Browser)
  : Browser :=
  commitChats env (updateChatTitleSorted env tid ttl (chats b)) b.

Definition removeChatHistory (s : LocalStorage) : LocalStorage :=
  mkStorage (ls_auth_token s) (ls_auth_user s) None.

(** [clearHistory]. *)
Definition clearHistory (b : Browser) : Browser :=
  mkBrowser (auth b) (removeChatHistory (storage b)) [].

(** The effect of [useChatHistory] that depends on [user]: it runs when the
    hook mounts and whenever [user] changes. *)
Definition historyEffect (b : Browser) : Browser :=
  match user (auth b) with
  | None => mkBrowser (auth b) (storage b) []
  | Some _ =>
      match ls_chat_history (storage b) with
      | Some parsed => mkBrowser (auth b) (storage b) (sortByUpdated parsed)
      | None => mkBrowser (auth b) (storage b) []
      end
  end.

(** A mutation of the store, with the environment of the call. *)
Inductive Mutation :=
| SaveChat (tid : string) (firstMsg customTitle : option string)
| DeleteChat (tid : string)
| UpdateChatTitle (tid ttl : string).

(** The sorted list a mutation builds before it is cut to [MAX_CHATS]. *)
Definition mutationList (env : CallEnv) (m : Mutation) (prev : list SavedChat)
  : list SavedChat :=
  match m with
  | SaveChat tid fm ct => saveChatSorted env tid fm ct prev
  | DeleteChat tid => deleteChatList tid prev
  | UpdateChatTitle tid ttl => updateChatTitleSorted env tid ttl prev
  end.

Definition applyMutation (em : CallEnv * Mutation) (b : Browser) : Browser :=
  commitChats (fst em) (mutationList (fst em) (snd em) (chats b)) b.

Definition runMutations (ms : list (CallEnv * Mutation)) (b : Browser)
  : Browser :=
  fold_left (fun acc em => applyMutation em acc) ms b.

(** ** Login and logout (Auth/AuthContext.tsx) *)

Record LoginData := mkLoginData {
  ld_user_id : string;
  ld_username : string;
  ld_email : option string;
  ld_token : string
}.

(** The answer of [POST /auth/login]. *)
Inductive LoginResponse :=
| LoginRefused (detail : option string)
| LoginAccepted (data : LoginData).

(** How a call ends: it returns, or it throws. *)
Inductive Completion (A : Type) :=
| Normal (a : A)
| Thrown (e : string).
Arguments Normal {A} a.
Arguments Thrown {A} e.

Definition loginFallback : string := "Ошибка входа".

(** [login], up to its last state change.  The [createRedisSession] call
    that follows is wrapped in [try]/[catch] and only writes to the
    console. *)
Definition login (resp : LoginResponse) (b : Browser)
  : Completion unit * Browser :=
  match resp with
  | LoginRefused detail =>
      (Thrown (if JS.truthy_opt detail then orEmpty detail else loginFallback), b)
  | LoginAccepted data =>
      let currentUserId := user_id_of (auth b) in
      let newUserId := ld_user_id data in
      let s0 :=
        if JS.truthy_opt currentUserId
           && negb (String.eqb (orEmpty currentUserId) newUserId)
        then removeChatHistory (storage b)
        else storage b in
      let u := mkUser (ld_user_id data) (ld_username data) (ld_email data) in
      (Normal tt,
       mkBrowser
         (mkAuth (Some u) (Some (ld_token data)) (loading (auth b)))
         (mkStorage (Some (ld_token data)) (Some u) (ls_chat_history s0))
         (chats b))
  end.

(** [login] followed by the render it causes: [setUser] installs a new
    object, so the [user]-dependent effect of [useChatHistory] runs. *)
Definition loginAndRender (resp : LoginResponse) (b : Browser)
  : Completion unit * Browser :=
  match login resp b with
  | (Normal r, b') => (Normal r, historyEffect b')
  | thrown => thrown
  end.

(** [logout].  A failure of [POST /auth/logout] is caught and logged. *)
Definition logout (b : Browser) : Browser :=
  mkBrowser
    (mkAuth None None (loading (auth b)))
    (mkStorage None None None)
    (chats b).

(** [verifyToken] when [GET /auth/me] is not answered with 2xx, or fails:
    [auth_token] and [auth_user] are removed, [token] and [user] are set to
    [null], and [loading] ends. *)
Definition verifyTokenRejected (b : Browser) : Browser :=
  mkBrowser
    (mkAuth None None false)
    (mkStorage None None (ls_chat_history (storage b)))
    (chats b).

(** [verifyToken] rejected, followed by the render it causes. *)
Definition verifyTokenRejectedAndRender (b : Browser) : Browser :=
  match user (auth b) with
  | Some _ => historyEffect (verifyTokenRejected b)
  | None => verifyTokenRejected b
  end.

(** [logout] followed by the render it causes: the effect runs when
    [user] changed, that is when somebody was logged in. *)
Definition logoutAndRender (b : Browser) : Browser :=
  match user (auth b) with
  | Some _ => historyEffect (logout b)
  | None => logout b
  end.

(** ** Session registry client (utils/redisApi) and [onThreadId] of [Chat] *)

(** The JSON body of an answer of the registry. *)
Record RegistryJson := mkRegistryJson {
  rj_detail : option string;
  rj_message : option string;
  rj_user_id : option string;
  rj_thread_id : option string
}.

(** What [fetch] gives: it rejects (network error), or it resolves with
    [response.ok], the status and the body; [None] is a body
    [response.json()] cannot read. *)
Inductive FetchOutcome :=
| FetchRejected (reason : string)
| FetchResponse (ok : bool) (status : Z) (body : option RegistryJson).

Inductive LogLevel := LogInfo | LogError.

Record DebugMessage := mkDebugMessage {
  dm_thread : string;
  dm_time : Z;
  dm_ack : RegistryJson
}.

(** The state [onThreadId] acts on: the browser, [currentThreadId] of
    [Chat], the thread id kept by the parent ([onThreadIdChange]), the
    router location, the debug messages and the console. *)
Record ChatPage := mkChatPage {
  browser : Browser;
  currentThreadId : option string;
  parentThreadId : option string;
  location : string;
  debugMessages : list DebugMessage;
  console : list (LogLevel * string)
}.

(** Handlers run in a state monad whose computations may throw; the state
    reached before a throw is kept. *)
Definition Eff (A : Type) : Type := ChatPage -> Completion A * ChatPage.

Definition ret {A} (a : A) : Eff A := fun p => (Normal a, p).

Definition bind {A B} (m : Eff A) (k : A -> Eff B) : Eff B :=
  fun p =>
    match m p with
    | (Normal a, p') => k a p'
    | (Thrown e, p') => (Thrown e, p')
    end.

Definition throw {A} (e : string) : Eff A := fun p => (Thrown e, p).

(** [try { body } catch (error) { handler }]. *)
Definition tryCatch {A} (body : Eff A) (handler : string -> Eff A) : Eff A :=
  fun p =>
    match body p with
    | (Normal a, p') => (Normal a, p')
    | (Thrown e, p') => handler e p'
    end.

Definition update (f : ChatPage -> ChatPage) : Eff unit :=
  fun p => (Normal tt, f p).

Declare Scope eff_scope.
Delimit Scope eff_scope with eff.
Notation "x <- m ;; k" := (bind m (fun x => k))
  (at level 61, m at next level, right associativity) : eff_scope.
Notation "m ;; k" := (bind m (fun _ => k))
  (at level 61, right associativity) : eff_scope.
Local Open Scope eff_scope.

Definition consoleWrite (lvl : LogLevel) (text : string) : Eff unit :=
  update (fun p =>
    mkChatPage (browser p) (currentThreadId p) (parentThreadId p) (location p)
      (debugMessages p) (console p ++ [(lvl, text)])).

Definition setCurrentThreadId (tid : string) : Eff unit :=
  update (fun p =>
    mkChatPage (browser p) (Some tid) (parentThreadId p) (location p)
      (debugMessages p) (console p)).

Definition onThreadIdChange (tid : string) : Eff unit :=
  update (fun p =>
    mkChatPage (browser p) (currentThreadId p) (Some tid) (location p)
      (debugMessages p) (console p)).

Definition navigate (path : string) : Eff unit :=
  update (fun p =>
    mkChatPage (browser p) (currentThreadId p) (parentThreadId p) path
      (debugMessages p) (console p)).

Definition saveChatInPage (env : CallEnv) (tid : string) : Eff unit :=
  update (fun p =>
    mkChatPage (saveChat env tid None None (browser p)) (currentThreadId p)
      (parentThreadId p) (location p) (debugMessages p) (console p)).

Definition pushDebugMessage (d : DebugMessage) : Eff unit :=
  update (fun p =>
    mkChatPage (browser p) (currentThreadId p) (parentThreadId p) (location p)
      (debugMessages p ++ [d]) (console p)).

Definition unknownError : string := "Неизвестная ошибка".
Definition linkFallback : string := "Не удалось добавить thread_id в сеанс".
Definition unreadableBody : string := "SyntaxError".

(** [addThreadToRedisSession], given what its [fetch] gives. *)
Definition addThreadToRedisSession (net : FetchOutcome) (tid tok : string)
  : Eff RegistryJson :=
  tryCatch
    (consoleWrite LogInfo "Redis API: Добавление thread_id в сеанс" ;;
     match net with
     | FetchRejected reason => throw reason
     | FetchResponse ok status body =>
         consoleWrite LogInfo "Redis API: Ответ получен" ;;
         if negb ok then
           let detail :=
             match body with
             | Some j => rj_detail j
             | None => Some unknownError
             end in
           consoleWrite LogError "Redis API: Ошибка добавления thread_id" ;;
           throw (if JS.truthy_opt detail then orEmpty detail else linkFallback)
         else
           match body with
           | Some data =>
               consoleWrite LogInfo "Redis API: thread_id добавлен успешно" ;;
               ret data
           | None => throw unreadableBody
           end
     end)
    (fun e =>
       consoleWrite LogError "Ошибка при добавлении thread_id в сеанс Redis:" ;;
       throw e).

Definition threadPath (tid : string) : string := ("/threads/" ++ tid)%string.

(** The guard of the registry call in [onThreadId]:
    [isAuthenticated && user?.user_id && token]. *)
Definition registrationAttempted (a : AuthState) : bool :=
  isAuthenticated a && JS.truthy_opt (user_id_of a) && JS.truthy_opt (token a).

(** [onThreadId] of the [useStream] options of [Chat]; [debug] is
    [settings.debugMode]. *)
Definition onThreadId (env : CallEnv) (debug : bool) (net : FetchOutcome)
    (tid : string) : Eff unit :=
  setCurrentThreadId tid ;;
  onThreadIdChange tid ;;
  navigate (threadPath tid) ;;
  saveChatInPage env tid ;;
  fun p =>
    let a := auth (browser p) in
    (if registrationAttempted a
     then
       tryCatch
         (redisResult <- addThreadToRedisSession net tid (orEmpty (token a)) ;;
          if debug then
            consoleWrite LogInfo "Redis обновлен" ;;
            consoleWrite LogInfo "user_id, thread_id" ;;
            pushDebugMessage (mkDebugMessage tid (now env) redisResult)
          else ret tt)
         (fun e =>
            consoleWrite LogError "Не удалось обновить Redis при создании потока:")
     else ret tt) p.

(** The part of the page the user sees change when a thread id arrives. *)
Definition visibleFlow (p : ChatPage)
  : option string * option string * string * Browser :=
  (currentThreadId p, parentThreadId p, location p, browser p).

(** ** Concrete inputs used below *)

Definition bobSession : AuthState :=
  mkAuth (Some (mkUser "  Bob  " "bob" None)) (Some "tok") false.

Definition anonymousSession : AuthState :=
  mkAuth (Some (mkUser "Anonymous" "guest" None)) (Some "tok") false.

(** An authenticated session whose identifier is only white space. *)
Definition blankSession : AuthState :=
  mkAuth (Some (mkUser "   " "guest" None)) (Some "tok") false.

(** Nobody is logged in. *)
Definition loggedOut : AuthState := mkAuth None None false.

(** The stream reports the text "timeout", is idle, and debug mode is off. *)
Definition timeoutView : StreamView :=
  mkStreamView (Some (ErrValue "timeout")) false false.

(** The same with another error text. *)
Definition quotaView : StreamView :=
  mkStreamView (Some (ErrObject "quota exceeded")) false false.

(** The stream is idle without an error. *)
Definition idleView : StreamView := mkStreamView None false false.

Definition afterTwoTimeouts : BreakerState :=
  recordErrorEffect 2 timeoutView (recordErrorEffect 1 timeoutView initialBreaker).

Definition afterThreeTimeouts : BreakerState :=
  recordErrorEffect 3 timeoutView afterTwoTimeouts.

(** ** The invariant of the chat history store *)

(** [x] may stand before [y] in a list sorted descending by [updatedAt]. *)
Definition descByUpdated (x y : SavedChat) : Prop :=
  (updatedAt y <= updatedAt x)%Z.

(** At most [MAX_CHATS] records, sorted descending by [updatedAt], no
    [threadId] twice. *)
Definition storeOk (l : list SavedChat) : Prop :=
  (List.length l <= MAX_CHATS)%nat
  /\ Sorted descByUpdated l
  /\ NoDup (map threadId l).

(** The invariant holds of the in-memory view and of the durable record. *)
Definition browserOk (b : Browser) : Prop :=
  storeOk (chats b)
  /\ match ls_chat_history (storage b) with
     | Some l => storeOk l
     | None => True
     end.

(** The test [chat.threadId === tid]. *)
Definition isThread (tid : string) (chat : SavedChat) : bool :=
  String.eqb (threadId chat) tid.

(** An optional string that is absent or trims to the empty string. *)
Definition isBlank (o : option string) : Prop :=
  forall s, o = Some s -> JS.trim s = "".

(** A browser right after the page loaded with nothing stored. *)
Definition emptyBrowser : Browser :=
  mkBrowser loggedOut (mkStorage None None None) [].

Definition envAt (t : Z) : CallEnv := mkEnv t "01.11.2026" true.

Definition threadName (n : nat) : string :=
  String (ascii_of_nat (32 + n)) "".

(** Thread [n] is created at time [n]. *)
Definition newThread (n : nat) : CallEnv * Mutation :=
  (envAt (Z.of_nat n), SaveChat (threadName n) None None).

(** 51 threads created one after the other. *)
Definition fiftyOneThreads : list (CallEnv * Mutation) :=
  map newThread (seq 1 51).

Definition alice : User := mkUser "alice" "Alice" None.

(** Alice is logged in on a fresh page. *)
Definition aliceBrowser : Browser :=
  mkBrowser (mkAuth (Some alice) (Some "tok-a") false)
    (mkStorage (Some "tok-a") (Some alice) None) [].

(** Alice has ten chats stored. *)
Definition aliceTenChats : Browser :=
  runMutations (map newThread (seq 1 10)) aliceBrowser.

(** The page is loaded again later: Alice's session is restored from the
    storage, which still holds her ten chats, and [verifyToken] is pending;
    no view is mounted yet. *)
Definition aliceReturns : Browser :=
  mkBrowser (mkAuth (Some alice) (Some "tok-a") true)
    (storage aliceTenChats) [].

Definition bobLogin : LoginData := mkLoginData "bob" "Bob" None "tok-b".

(** The registry call fails: [fetch] rejects, or the answer is not 2xx. *)
Definition registrationFails (net : FetchOutcome) : Prop :=
  match net with
  | FetchRejected _ => True
  | FetchResponse ok _ _ => ok = false
  end.

Definition diagnosticOfOnThreadId : LogLevel * string :=
  (LogError, "Не удалось обновить Redis при создании потока:").

(** Alice's chat page before a thread id is assigned. *)
Definition alicePage : ChatPage :=
  mkChatPage aliceBrowser None None "/" [] [].


(** ** Further definitions: the store seen by its callers *)

(** The test [chat.threadId !== tid] of [deleteChat]. *)
Definition notThread (tid : string) (chat : SavedChat) : bool :=
  negb (isThread tid chat).

(** The record [updateChatTitle] writes over [chat]. *)
Definition renamed (env : CallEnv) (ttl : string) (chat : SavedChat) : SavedChat :=
  mkChat (threadId chat) ttl (createdAt chat) (now env) (firstMessage chat).

(** Alice's store holds one chat she has renamed. *)
Definition aliceRenamed : Browser :=
  updateChatTitle (envAt 20) "thread-1" "Trip to Oslo"
    (saveChat (envAt 10) "thread-1" (Some "<task>book a flight</task>") None
       aliceBrowser).

(** ** Further definitions: runs of the [ChatError] effects *)

(** One run of an effect of [ChatError]: the first one with the clock
    reading, or the second one, each with what it reads at that render. *)
Inductive BreakerEvent :=
| RecordRun (now : Z) (v : StreamView)
| ResetRun (v : StreamView).

Definition breakerStep (st : BreakerState) (e : BreakerEvent) : BreakerState :=
  match e with
  | RecordRun now v => recordErrorEffect now v st
  | ResetRun v => resetEffect v st
  end.

Definition runBreaker (es : list BreakerEvent) (st : BreakerState)
  : BreakerState :=
  fold_left breakerStep es st.

(** The ring holds at most five records; the breaker is tripped exactly
    when a repeated text is kept, and then the ring holds at least three
    records whose last three carry that text, which is not empty. *)
Definition breakerOk (st : BreakerState) : Prop :=
  (List.length (errorHistory st) <= 5)%nat
  /\ (shouldStop st = false -> repeatedError st = None)
  /\ (shouldStop st = true ->
      exists t, repeatedError st = Some t /\ t <> ""
                /\ (3 <= List.length (errorHistory st))%nat
                /\ Forall (fun r => error r = t)
                     (sliceLast 3 (errorHistory st))).

(** The same stream error, seen with debug mode on. *)
Definition timeoutDebugView : StreamView :=
  mkStreamView (Some (ErrValue "timeout")) false true.

(** ** Further definitions: session restore and the login form
       (Auth/AuthContext.tsx, Auth/Login.tsx) *)

(** The state of [AuthProvider] when the page loads. *)
Definition initialAuth : AuthState := mkAuth None None true.

(** The page is loaded over the storage [s]. *)
Definition pageLoad (s : LocalStorage) : Browser := mkBrowser initialAuth s [].

(** The mount effect of [AuthProvider], up to the calls it starts
    ([verifyToken], [createRedisSession]).  [parses] tells whether
    [JSON.parse(savedUser)] succeeds; [setToken(savedToken)] comes before
    the [try]. *)
Definition restoreSession (parses : bool) (b : Browser) : Browser :=
  match ls_auth_token (storage b), ls_auth_user (storage b) with
  | Some savedToken, Some savedUser =>
      if JS.truthy savedToken then
        if parses
        then mkBrowser
               (mkAuth (Some savedUser) (Some savedToken) (loading (auth b)))
               (storage b) (chats b)
        else mkBrowser
               (mkAuth (user (auth b)) (Some savedToken) false)
               (mkStorage None None (ls_chat_history (storage b)))
               (chats b)
      else mkBrowser (mkAuth (user (auth b)) (token (auth b)) false)
             (storage b) (chats b)
  | _, _ =>
      mkBrowser (mkAuth (user (auth b)) (token (auth b)) false)
        (storage b) (chats b)
  end.

(** [verifyToken] when [GET /auth/me] is answered with 2xx and
    [userData]. *)
Definition verifyTokenAccepted (tokenToVerify : string) (userData : User)
    (b : Browser) : Browser :=
  mkBrowser (mkAuth (Some userData) (Some tokenToVerify) false)
    (storage b) (chats b).

(** What the [fetch] of [login] gives: it rejects, or the server answers. *)
Inductive LoginAttempt :=
| LoginUnreachable (message : string)
| LoginAnswered (resp : LoginResponse).

(** [error] and [loading] of the [Login] form. *)
Record LoginForm := mkLoginForm {
  lf_error : option string;
  lf_loading : bool
}.

Definition loginFormFallback : string :=
  "Ошибка входа. Проверьте имя пользователя и пароль.".

(** [handleSubmit] of [Login]. *)
Definition loginSubmit (attempt : LoginAttempt) (b : Browser)
  : LoginForm * Browser :=
  let outcome :=
    match attempt with
    | LoginUnreachable message => (Thrown message, b)
    | LoginAnswered resp => loginAndRender resp b
    end in
  match outcome with
  | (Normal _, b') => (mkLoginForm None false, b')
  | (Thrown e, b') =>
      (mkLoginForm (Some (if JS.truthy e then e else loginFormFallback)) false, b')
  end.

Definition sessionFallback : string := "Не удалось создать сеанс в Redis".

(** [createRedisSession], given what its [fetch] gives. *)
Definition createRedisSession (net : FetchOutcome) (tok : string)
  : Eff RegistryJson :=
  tryCatch
    (consoleWrite LogInfo "Redis API: Создание сеанса" ;;
     match net with
     | FetchRejected reason => throw reason
     | FetchResponse ok status body =>
         consoleWrite LogInfo "Redis API: Ответ получен" ;;
         if negb ok then
           let detail :=
             match body with
             | Some j => rj_detail j
             | None => Some unknownError
             end in
           consoleWrite LogError "Redis API: Ошибка создания сеанса" ;;
           throw (if JS.truthy_opt detail then orEmpty detail else sessionFallback)
         else
           match body with
           | Some data =>
               consoleWrite LogInfo "Redis API: Сеанс создан успешно" ;;
               ret data
           | None => throw unreadableBody
           end
     end)
    (fun e =>
       consoleWrite LogError "Ошибка при создании сеанса в Redis:" ;;
       throw e).

Definition diagnosticOfLogin : LogLevel * string :=
  (LogError, "Не удалось создать сеанс в Redis при авторизации:").

(** [login] with the [createRedisSession] call that ends it. *)
Definition loginWithSession (resp : LoginResponse) (net : FetchOutcome)
  : Eff unit :=
  fun p =>
    match login resp (browser p) with
    | (Thrown e, _) => (Thrown e, p)
    | (Normal _, b') =>
        tryCatch
          (redisResult <- createRedisSession net (orEmpty (token (auth b'))) ;;
           consoleWrite LogInfo "Redis сеанс создан при авторизации" ;;
           consoleWrite LogInfo "user_id")
          (fun e => consoleWrite (fst diagnosticOfLogin) (snd diagnosticOfLogin))
          (mkChatPage b' (currentThreadId p) (parentThreadId p) (location p)
             (debugMessages p) (console p))
    end.

(** The storage after Alice logged in and stored ten chats. *)
Definition aliceStorage : LocalStorage := storage aliceTenChats.

(** ** Further definitions: the thinking indicator *)

Inductive MessageType := HumanMessage | AiMessage | ToolMessage | SystemMessage.

Definition isAi (t : MessageType) : bool :=
  match t with AiMessage => true | _ => false end.
Definition isTool (t : MessageType) : bool :=
  match t with ToolMessage => true | _ => false end.
Definition isHuman (t : MessageType) : bool :=
  match t with HumanMessage => true | _ => false end.

(** One element of an array [content]: a string, or an object whose
    [text] may be missing. *)
Inductive ContentPart :=
| PartString (s : string)
| PartObject (text : option string).

(** [content] of a message: a string, an array, or something else. *)
Inductive MessageContent :=
| TextContent (s : string)
| PartsContent (parts : list ContentPart)
| OtherContent.

Record ToolCall := mkToolCall { tc_name : option string }.

Record Message := mkMessage {
  msg_type : MessageType;
  msg_content : MessageContent;
  msg_tool_calls : option (list ToolCall)
}.

(** [a.length > 0 ? a[a.length - 1] : null]. *)
Fixpoint lastOf {A} (l : list A) : option A :=
  match l with
  | [] => None
  | [x] => Some x
  | _ :: l' => lastOf l'
  end.

(** Is [needle] a prefix of [s]? *)
Fixpoint startsWith (needle s : string) : bool :=
  match needle, s with
  | EmptyString, _ => true
  | String n needle', String c s' => Ascii.eqb n c && startsWith needle' s'
  | String _ _, EmptyString => false
  end.

(** [s.includes(needle)]. *)
Fixpoint includes (needle s : string) : bool :=
  startsWith needle s
  || match s with
     | EmptyString => false
     | String _ s' => includes needle s'
     end.

Definition statusProcessing : string := "Обработка запроса...".
Definition statusSubAgent : string := "Выполнение задачи суб-агента...".
Definition statusTool : string := "Выполнение инструмента...".
Definition statusToolResult : string := "Обработка результата основным агентом...".

(** [lastMessage?.tool_calls && lastMessage.tool_calls.length > 0]. *)
Definition hasActiveToolCalls (lastMessage : option Message) : bool :=
  match lastMessage with
  | Some m =>
      match msg_tool_calls m with
      | Some (_ :: _) => true
      | _ => false
      end
  | None => false
  end.

(** [lastMessage?.tool_calls?.[0]?.name || ""]. *)
Definition firstToolName (lastMessage : option Message) : string :=
  match lastMessage with
  | Some m =>
      match msg_tool_calls m with
      | Some (tc :: _) =>
          if JS.truthy_opt (tc_name tc) then orEmpty (tc_name tc) else ""
      | _ => ""
      end
  | None => ""
  end.

(** [isAgent] of [ThinkingIndicator]. *)
Definition isAgentTool (toolName : string) : bool :=
  JS.truthy toolName
  && (includes "_agent" toolName
      || String.eqb toolName "email_agent"
      || String.eqb toolName "tinkoff_agent"
      || String.eqb toolName "researcher_agent").

(** [ThinkingIndicator]: [None] when nothing is rendered, else the status
    text shown beside the spinner.  [debug] is [settings.debugMode],
    [loadingNow] is [thread?.isLoading]. *)
Definition thinkingIndicator (debug loadingNow : bool) (messages : list Message)
  : option string :=
  if debug then None
  else
    let lastMessage := lastOf messages in
    let isWaitingForUser :=
      match lastMessage with
      | Some m => isAi (msg_type m)
      | None => false
      end in
    let isProcessing := loadingNow && negb isWaitingForUser in
    let lastToolMessage :=
      (0 <? List.length messages)%nat
      && match lastMessage with
         | Some m => isTool (msg_type m)
         | None => false
         end in
    let shouldShow :=
      isProcessing
      && (hasActiveToolCalls lastMessage || lastToolMessage
          || (0 <? List.length messages)%nat) in
    if (List.length messages <=? 0)%nat || isWaitingForUser || negb shouldShow
    then None
    else
      Some (if hasActiveToolCalls lastMessage then
              if isAgentTool (firstToolName lastMessage)
              then statusSubAgent
              else statusTool
            else if lastToolMessage then statusToolResult
            else statusProcessing).

(** A human message with a text. *)
Definition humanSays (s : string) : Message :=
  mkMessage HumanMessage (TextContent s) None.

(** A tool message that still carries a pending call of the named tool. *)
Definition toolCalls (name : string) : Message :=
  mkMessage ToolMessage (TextContent "") (Some [mkToolCall (Some name)]).

(** ** Further definitions: the registration form *)

Record RegisterForm := mkRegisterForm {
  rf_username : string;
  rf_email : string;
  rf_password : string;
  rf_confirmPassword : string
}.

(** The body of [POST /users/]. *)
Record RegisterRequest := mkRegisterRequest {
  rq_username : string;
  rq_email : option string;
  rq_password : string
}.

(** What the [fetch] of the registration gives: it rejects; the answer is
    not 2xx, with a body that cannot be read ([None]) or with its optional
    [detail]; or the user was created. *)
Inductive RegisterAnswer :=
| RegisterUnreachable (message : string)
| RegisterRefused (body : option (option string))
| RegisterCreated.

(** What one submission of the form leaves behind: the error shown, the
    request sent (if any), whether [login] was called, and the route the
    form navigated to (if any). *)
Record RegisterResult := mkRegisterResult {
  rr_error : option string;
  rr_request : option RegisterRequest;
  rr_loginCalled : bool;
  rr_navigate : option string
}.

Definition passwordsDiffer : string := "Пароли не совпадают".
Definition passwordTooShort : string :=
  "Пароль должен содержать минимум 3 символа".
Definition usernameRequired : string := "Имя пользователя обязательно".
Definition registerFallback : string := "Ошибка регистрации".
Definition registerCatchFallback : string :=
  "Ошибка регистрации. Попробуйте еще раз.".
Definition autoLoginFallback : string :=
  "Регистрация успешна, но не удалось выполнить автоматический вход. Пожалуйста, войдите вручную.".

(** [x || fallback] for a string. *)
Definition orElse (x fallback : string) : string :=
  if JS.truthy x then x else fallback.

(** [handleSubmit] of [Register]. *)
Definition registerSubmit (form : RegisterForm) (answer : RegisterAnswer)
    (attempt : LoginAttempt) (b : Browser) : RegisterResult * Browser :=
  if negb (String.eqb (rf_password form) (rf_confirmPassword form))
  then (mkRegisterResult (Some passwordsDiffer) None false None, b)
  else if (String.length (rf_password form) <? 3)%nat
  then (mkRegisterResult (Some passwordTooShort) None false None, b)
  else if negb (JS.truthy (JS.trim (rf_username form)))
  then (mkRegisterResult (Some usernameRequired) None false None, b)
  else
    let request :=
      mkRegisterRequest (JS.trim (rf_username form))
        (if JS.truthy (JS.trim (rf_email form))
         then Some (JS.trim (rf_email form)) else None)
        (rf_password form) in
    match answer with
    | RegisterUnreachable message =>
        (mkRegisterResult (Some (orElse message registerCatchFallback))
           (Some request) false None, b)
    | RegisterRefused None =>
        (mkRegisterResult (Some (orElse unreadableBody registerCatchFallback))
           (Some request) false None, b)
    | RegisterRefused (Some detail) =>
        (mkRegisterResult
           (Some (orElse (if JS.truthy_opt detail then orEmpty detail
                          else registerFallback)
                    registerCatchFallback))
           (Some request) false None, b)
    | RegisterCreated =>
        let outcome :=
          match attempt with
          | LoginUnreachable message => (Thrown message, b)
          | LoginAnswered resp => loginAndRender resp b
          end in
        match outcome with
        | (Normal _, b') =>
            (mkRegisterResult None (Some request) true (Some "/"), b')
        | (Thrown e, b') =>
            (mkRegisterResult (Some (orElse e autoLoginFallback))
               (Some request) true (Some "/?registered=true"), b')
        end
    end.

Definition carolForm : RegisterForm :=
  mkRegisterForm "  carol " " " "s3cret" "s3cret".

(** ** Further definitions: the switches of the sidebar *)

(** The fields of [settings] the sidebar reads and writes; a field that
    was never set is [None]. *)
Record Settings := mkSettings {
  sideBarOpen : option bool;
  st_debugMode : option bool;
  st_autoApprove : option bool
}.

(** [!!x] for an optional boolean. *)
Definition truthy_bool (o : option bool) : bool :=
  match o with
  | Some true => true
  | _ => false
  end.

(** What the user can do in the sidebar: open or close it, select a chat
    in a window of the given width, and flip the two switches. *)
Inductive SidebarEvent :=
| ToggleSidebar
| ChatSelected (innerWidth : Z)
| DebugSwitch (checked : bool)
| AutoApproveSwitch (checked : bool).

(** The handlers of [SidebarComponent].  The auto-approve switch is
    rendered with [disabled={!settings.debugMode}]: while it is disabled it
    does not call its handler. *)
Definition sidebarStep (s : Settings) (e : SidebarEvent) : Settings :=
  match e with
  | ToggleSidebar =>
      mkSettings (Some (negb (truthy_bool (sideBarOpen s))))
        (st_debugMode s) (st_autoApprove s)
  | ChatSelected innerWidth =>
      if (innerWidth <=? 900)%Z
      then mkSettings (Some false) (st_debugMode s) (st_autoApprove s)
      else s
  | DebugSwitch checked =>
      mkSettings (sideBarOpen s) (Some checked)
        (if negb checked then Some true else st_autoApprove s)
  | AutoApproveSwitch checked =>
      if negb (truthy_bool (st_debugMode s)) then s
      else mkSettings (sideBarOpen s) (st_debugMode s) (Some checked)
  end.

Definition runSidebar (es : list SidebarEvent) (s : Settings) : Settings :=
  fold_left sidebarStep es s.

(** No event of the list switches debug mode on. *)
Definition keepsDebugOff (es : list SidebarEvent) : Prop :=
  Forall (fun e => e <> DebugSwitch true) es.

(** ** Further definitions: the date label of the history list *)

Inductive DateLabel :=
| Today
| Yesterday
| DaysAgo (days : Z)
| ShortDate (timestamp : Z).

Definition msPerDay : Z := 1000 * 60 * 60 * 24.

(** [formatDate] of [ChatHistoryList], with [new Date()] read as
    [nowMs]. *)
Definition formatDate (nowMs timestamp : Z) : DateLabel :=
  let diff := (nowMs - timestamp)%Z in
  let days := (diff / msPerDay)%Z in
  if (days =? 0)%Z then Today
  else if (days =? 1)%Z then Yesterday
  else if (days <? 7)%Z then DaysAgo days
  else ShortDate timestamp.

(** ** Further definitions: the handlers of the history list *)

(** The state of [ChatHistoryList]: its dialog and editor, the thread of
    the route ([useParams]) and the last route it navigated to. *)
Record HistoryListUi := mkListUi {
  deleteDialogOpen : bool;
  chatToDelete : option string;
  editingChatId : option string;
  editTitle : string;
  routeThreadId : option string;
  hl_navigated : option string
}.

(** [handleDeleteClick]. *)
Definition handleDeleteClick (tid : string) (ui : HistoryListUi) : HistoryListUi :=
  mkListUi true (Some tid) (editingChatId ui) (editTitle ui)
    (routeThreadId ui) (hl_navigated ui).

(** [handleDeleteConfirm]. *)
Definition handleDeleteConfirm (env : CallEnv) (ui : HistoryListUi) (b : Browser)
  : HistoryListUi * Browser :=
  match chatToDelete ui with
  | Some tid =>
      if JS.truthy tid then
        (mkListUi false None (editingChatId ui) (editTitle ui)
           (routeThreadId ui)
           (match routeThreadId ui with
            | Some open => if String.eqb tid open then Some "/"
                           else hl_navigated ui
            | None => hl_navigated ui
            end),
         deleteChat env tid b)
      else (ui, b)
  | None => (ui, b)
  end.

(** [handleEditSave]. *)
Definition handleEditSave (env : CallEnv) (tid : string) (ui : HistoryListUi)
    (b : Browser) : HistoryListUi * Browser :=
  (mkListUi (deleteDialogOpen ui) (chatToDelete ui) None ""
     (routeThreadId ui) (hl_navigated ui),
   if JS.truthy (JS.trim (editTitle ui))
   then updateChatTitle env tid (JS.trim (editTitle ui)) b
   else b).

(** The list as [App] mounts it.  The sidebar is the element of the outer
    route [path="*"]; the route [/threads/:threadId] is nested inside it, so
    in the list [useParams().threadId] is [undefined] on every path. *)
Definition listInSidebar : HistoryListUi :=
  mkListUi false None None "" None None.

(** ** Further definitions: how [Chat] and the sidebar feed the store *)

(** [typeof item === "string" ? item : item.text || ""]. *)
Definition partText (part : ContentPart) : string :=
  match part with
  | PartString s => s
  | PartObject text => if JS.truthy_opt text then orEmpty text else ""
  end.

(** The text [Chat] and [App] read off [content]. *)
Definition messageText (content : MessageContent) : string :=
  match content with
  | TextContent s => s
  | PartsContent parts => String.concat " " (map partText parts)
  | OtherContent => ""
  end.

Definition humanMessages (messages : list Message) : list Message :=
  filter (fun msg => isHuman (msg_type msg)) messages.

(** The effect of [Chat] that depends on [currentThreadId] and the stable
    messages. *)
Definition chatTitleEffect (env : CallEnv) (currentThread : option string)
    (stableMessages : list Message) (b : Browser) : Browser :=
  if JS.truthy_opt currentThread && (0 <? List.length stableMessages)%nat then
    match lastOf (humanMessages stableMessages) with
    | Some lastHumanMessage =>
        saveChat env (orEmpty currentThread)
          (Some (messageText (msg_content lastHumanMessage))) None b
    | None => b
    end
  else b.

(** [getCurrentChatInfo] of [InnerApp]; [threadMessages] is
    [currentThreadRef.current?.messages], with [None] for no thread. *)
Definition getCurrentChatInfo (threadMessages : option (list Message))
    (currentThread : option string) : option (string * string) :=
  match threadMessages with
  | None => None
  | Some messages =>
      if negb (JS.truthy_opt currentThread) then None
      else
        match find (fun msg => isHuman (msg_type msg)) messages with
        | Some firstHumanMessage =>
            Some (orEmpty currentThread,
                  messageText (msg_content firstHumanMessage))
        | None => None
        end
  end.

(** The state of the sidebar that "new chat" touches: the dialog, the chat
    it is about, the title typed, the last route navigated to and the
    number of calls of [onNewChat]. *)
Record SidebarUi := mkSidebarUi {
  saveDialogOpen : bool;
  pendingChatInfo : option (string * string);
  chatTitle : string;
  sb_navigated : option string;
  newChatCalls : nat
}.

(** [handleNewChat]. *)
Definition handleNewChat (info : option (string * string)) (ui : SidebarUi)
  : SidebarUi :=
  match info with
  | Some currentChatInfo =>
      mkSidebarUi true (Some currentChatInfo)
        (JS.slice0 100 (cleanMessage (snd currentChatInfo)))
        (sb_navigated ui) (newChatCalls ui)
  | None =>
      mkSidebarUi (saveDialogOpen ui) (pendingChatInfo ui) (chatTitle ui)
        (Some "/") (S (newChatCalls ui))
  end.

(** [handleSaveDialogConfirm], with the timer it starts run to its end. *)
Definition handleSaveDialogConfirm (env : CallEnv) (ui : SidebarUi) (b : Browser)
  : SidebarUi * Browser :=
  (mkSidebarUi false None "" (Some "/") (S (newChatCalls ui)),
   match pendingChatInfo ui with
   | Some (tid, firstMsg) =>
       saveChat env tid (Some firstMsg)
         (if JS.truthy (JS.trim (chatTitle ui))
          then Some (JS.trim (chatTitle ui)) else None)
         b
   | None => b
   end).

Definition freshSidebar : SidebarUi := mkSidebarUi false None "" None 0.

(** ** Further definitions: everything that touches the store *)

(** The calls that change the in-memory view or the durable record of the
    chat history: the three mutations, [clearHistory], the loading effect,
    and the session changes of the authentication provider. *)
Inductive StoreEvent :=
| Mutate (em : CallEnv * Mutation)
| ClearHistory
| LoadHistory
| LoginEvent (resp : LoginResponse)
| LogoutEvent
| TokenRejectedEvent.

Definition storeStep (b : Browser) (e : StoreEvent) : Browser :=
  match e with
  | Mutate em => applyMutation em b
  | ClearHistory => clearHistory b
  | LoadHistory => historyEffect b
  | LoginEvent resp => snd (loginAndRender resp b)
  | LogoutEvent => logoutAndRender b
  | TokenRejectedEvent => verifyTokenRejectedAndRender b
  end.

Definition runStore (es : list StoreEvent) (b : Browser) : Browser :=
  fold_left storeStep es b.

(** ** Further definitions: stores for two writes to one thread *)

(** Fifty threads whose records carry the stamps 101 to 150: a full store,
    every record of which is more recent than a clock reading of 20. *)
Definition fiftyLaterThreads : Browser :=
  runMutations (map newThread (seq 101 50)) emptyBrowser.

(** Another mounted instance of [useChatHistory]: [Chat], the sidebar and
    [ChatHistoryList] each call the hook, so each has a [chats] state of its
    own ([view]) over the one [localStorage]. *)
Definition otherInstance (view : list SavedChat) (b : Browser) : Browser :=
  mkBrowser (auth b) (storage b) view.


(** * Properties *)

(** Case analysis on the test of the outermost conditional of the goal. *)
Ltac case_if :=
  match goal with
  | |- context [if ?c then _ else _] => destruct c eqn:?
  end.

(** ** Strings *)

Lemma truthy_true_iff (s : string) : JS.truthy s = true <-> s <> "".
Proof.
  destruct s; simpl; split; intro H; try discriminate; try reflexivity.
  now contradiction H.
Qed.

Lemma truthy_false_iff (s : string) : JS.truthy s = false <-> s = "".
Proof.
  destruct s; simpl; split; intro H; try discriminate; reflexivity.
Qed.

Lemma trimStart_blank_prefix (s : string) :
  JS.trimStart s = "" -> JS.trim s = "".
Proof.
  unfold JS.trim. intros ->. reflexivity.
Qed.


Example trim_Bob : JS.trim "  Bob  " = "Bob".
Proof. reflexivity. Qed.

Example lower_Anonymous : JS.toLowerCase "AnonYmous" = "anonymous".
Proof. reflexivity. Qed.

Example cleanMessage_task :
  cleanMessage "<TASK> book a flight </task>" = "book a flight".
Proof. reflexivity. Qed.

(** ** Identity context resolver *)

Section Identity.

Variable a : AuthState.

Lemma isAuthenticated_inv :
  isAuthenticated a = true ->
  exists u tok, user a = Some u /\ token a = Some tok /\ tok <> "".
Proof.
  unfold isAuthenticated.
  destruct (user a) as [u|]; [|discriminate].
  destruct (token a) as [tok|]; simpl; [|discriminate].
  intros H. exists u, tok. repeat split. now apply truthy_true_iff.
Qed.

Lemma useUserConfig_some (c : UserConfig) :
  useUserConfig a = Some c ->
  loading a = false /\ isAuthenticated a = true /\
  exists u, user a = Some u /\
            cfg_user_id c = JS.trim (user_id u) /\
            JS.trim (user_id u) <> "" /\
            JS.toLowerCase (JS.trim (user_id u)) <> "anonymous".
Proof.
  unfold useUserConfig, user_id_of.
  destruct (loading a); [discriminate|].
  destruct (isAuthenticated a); simpl; [|discriminate].
  destruct (user a) as [u|]; simpl; [|discriminate].
  destruct (JS.truthy (user_id u)); simpl; [|discriminate].
  destruct (JS.truthy (JS.trim (user_id u))) eqn:Ht; simpl; [|discriminate].
  destruct (String.eqb_spec (JS.toLowerCase (JS.trim (user_id u))) "anonymous")
    as [|Hne]; [discriminate|].
  intros [= <-]. repeat split.
  exists u. repeat split; simpl; auto.
  now apply truthy_true_iff.
Qed.

Lemma useUserConfig_ready (u : User) :
  loading a = false -> isAuthenticated a = true -> user a = Some u ->
  JS.trim (user_id u) <> "" ->
  JS.toLowerCase (JS.trim (user_id u)) <> "anonymous" ->
  useUserConfig a = Some (mkConfig (JS.trim (user_id u))).
Proof.
  intros Hl Ha Hu Hne Han.
  unfold useUserConfig, user_id_of. rewrite Hl, Ha, Hu. simpl.
  assert (Hraw : JS.truthy (user_id u) = true).
  { apply truthy_true_iff. intros E. apply Hne. now rewrite E. }
  rewrite Hraw. simpl.
  apply truthy_true_iff in Hne. rewrite Hne. simpl.
  apply String.eqb_neq in Han. now rewrite Han.
Qed.

Lemma useUserConfig_invalid (u : User) :
  user a = Some u ->
  JS.trim (user_id u) = "" \/
  JS.toLowerCase (JS.trim (user_id u)) = "anonymous" ->
  useUserConfig a = None.
Proof.
  intros Hu Hbad.
  destruct (useUserConfig a) as [c|] eqn:E; [|reflexivity].
  apply useUserConfig_some in E.
  destruct E as (_ & _ & u' & Hu' & _ & Hne & Han).
  rewrite Hu in Hu'. injection Hu' as <-.
  destruct Hbad; contradiction.
Qed.

End Identity.

(** C1.  [useUserConfig] gives a context exactly when authentication has
    finished loading, the user is authenticated and the trimmed identifier
    is neither empty nor, ignoring case, "anonymous"; the context then
    carries the trimmed identifier.  An identifier that trims to the empty
    string or to "anonymous" in any casing gives no context, and the
    identifier "  Bob  " of an authenticated user gives [user_id] "Bob". *)
Theorem useUserConfig_ready_iff_valid_identity :
  forall (a : AuthState),
    (forall c, useUserConfig a = Some c <->
       loading a = false /\ isAuthenticated a = true /\
       exists u, user a = Some u /\
                 c = mkConfig (JS.trim (user_id u)) /\
                 JS.trim (user_id u) <> "" /\
                 JS.toLowerCase (JS.trim (user_id u)) <> "anonymous")
    /\ (forall u, user a = Some u ->
          JS.trim (user_id u) = "" \/
          JS.toLowerCase (JS.trim (user_id u)) = "anonymous" ->
          useUserConfig a = None)
    /\ (forall u, user a = Some u -> user_id u = "  Bob  " ->
          loading a = false -> isAuthenticated a = true ->
          useUserConfig a = Some (mkConfig "Bob")).
Proof.
  intros a. split; [|split].
  - intros c. split.
    + intros H. destruct (useUserConfig_some a c H) as (Hl & Ha & u & Hu & Hc & Hne & Han).
      repeat split; auto. exists u. repeat split; auto.
      destruct c as [i]. simpl in Hc. now rewrite Hc.
    + intros (Hl & Ha & u & Hu & -> & Hne & Han).
      now apply useUserConfig_ready.
  - intros u Hu Hbad. now apply (useUserConfig_invalid a u).
  - intros u Hu Hid Hl Ha.
    rewrite (useUserConfig_ready a u Hl Ha Hu); rewrite Hid; try reflexivity.
    + discriminate.
    + discriminate.
Qed.

Lemma useUserConfig_ready_iff_valid_identity_witness :
  useUserConfig bobSession = Some (mkConfig "Bob")
  /\ useUserConfig anonymousSession = None.
Proof.
  split.
  - apply (proj2 (proj2 (useUserConfig_ready_iff_valid_identity bobSession))
             (mkUser "  Bob  " "bob" None)); reflexivity.
  - apply (proj1 (proj2 (useUserConfig_ready_iff_valid_identity anonymousSession))
             (mkUser "Anonymous" "guest" None)); [reflexivity|].
    right. reflexivity.
Defined.

(** ** Route guard and stream configuration *)

Lemma threadConfig_none_when_not_authenticated (a : AuthState) :
  loading a = true \/ isAuthenticated a = false ->
  threadConfig a = None.
Proof.
  intros H. unfold threadConfig.
  assert (Hcfg : useUserConfig a = None).
  { unfold useUserConfig. destruct H as [-> | ->]; [reflexivity|].
    now destruct (loading a). }
  rewrite Hcfg. destruct H as [-> | ->]; [reflexivity|].
  now destruct (loading a).
Qed.

(** While authentication loads, and for a user who is not authenticated,
    the guarded route does not render [Chat]: no [useStream] call is made. *)
Lemma chatStreamCalls_guarded (a : AuthState) (t : option string) :
  loading a = true \/ isAuthenticated a = false ->
  chatStreamCalls a t = [].
Proof.
  intros H. unfold chatStreamCalls, ProtectedRoute.
  destruct H as [-> | ->]; [reflexivity|]. now destruct (loading a).
Qed.

(** When the identity context is ready, the stream is configured with it. *)
Lemma threadConfig_ready (a : AuthState) (c : UserConfig) :
  useUserConfig a = Some c -> threadConfig a = Some c.
Proof.
  intros H. unfold threadConfig. rewrite H.
  destruct (useUserConfig_some a c H) as (_ & _ & u & _ & Hc & Hne & _).
  rewrite Hc. apply truthy_true_iff in Hne. now rewrite Hne.
Qed.

(** The fallback branch: an authenticated user whose identifier is not
    empty always gets a configuration, valid identifier or not. *)
Lemma threadConfig_fallback (a : AuthState) (u : User) :
  loading a = false -> isAuthenticated a = true -> user a = Some u ->
  user_id u <> "" -> useUserConfig a = None ->
  threadConfig a = Some (mkConfig (user_id u)).
Proof.
  intros Hl Ha Hu Hid Hcfg. unfold threadConfig, user_id_of.
  rewrite Hcfg, Hl, Ha, Hu. simpl.
  apply truthy_true_iff in Hid. now rewrite Hid.
Qed.

(** C2, at the failing input.  For an authenticated user whose identifier is
    "Anonymous" the identity context is not ready, yet the thread view is
    rendered and calls [useStream] with a configuration that carries the
    rejected identifier. *)
Theorem chatStreamCalls_invalid_identity_reaches_stream :
  useUserConfig anonymousSession = None
  /\ chatStreamCalls anonymousSession (Some "thread-1")
     = [mkStreamOptions (Some "thread-1") (Some (mkConfig "Anonymous"))].
Proof.
  split; reflexivity.
Qed.

(** ** Retry from the error view *)

Lemma handleRetry_rejects_unauthenticated (a : AuthState) :
  isAuthenticated a = false \/ user_id_of a = None \/ user_id_of a = Some "" ->
  handleRetry a = RetryRejected retryNotAuthenticated.
Proof.
  unfold handleRetry, useUserId.
  intros [H | [H | H]]; rewrite H; simpl; try reflexivity.
  - destruct (isAuthenticated a); reflexivity.
  - destruct (isAuthenticated a); reflexivity.
Qed.

Lemma handleRetry_rejects_anonymous (a : AuthState) (u : User) :
  isAuthenticated a = true -> user a = Some u -> user_id u <> "" ->
  JS.toLowerCase (JS.trim (user_id u)) = "anonymous" ->
  handleRetry a = RetryRejected retryInvalidUser.
Proof.
  intros Ha Hu Hid Han.
  assert (Hcfg : useUserConfig a = None)
    by (apply (useUserConfig_invalid a u Hu); now right).
  unfold handleRetry, useUserId, user_id_of. rewrite Ha, Hu, Hcfg. simpl.
  apply truthy_true_iff in Hid. rewrite Hid. cbn [negb cfg_user_id].
  rewrite Hid, Han. reflexivity.
Qed.

(** C5, at the failing input.  For an authenticated user whose identifier
    is three spaces the identity context is not ready, yet [handleRetry]
    calls [submit] with that identifier: the emptiness test is made before
    trimming. *)
Theorem handleRetry_blank_identity_submits :
  useUserConfig blankSession = None
  /\ handleRetry blankSession = RetrySubmitted (mkConfig "   ").
Proof.
  split; reflexivity.
Qed.

(** ** Error ring and repetition breaker *)

Section SliceLast.

Context {A : Type}.

Lemma sliceLast_snoc (n : nat) (l : list A) (x : A) :
  sliceLast (S n) (l ++ [x]) = sliceLast n l ++ [x].
Proof.
  unfold sliceLast. rewrite length_app. simpl.
  replace (List.length l + 1 - S n)%nat with (List.length l - n)%nat by lia.
  rewrite skipn_app.
  replace (List.length l - n - List.length l)%nat with 0%nat by lia.
  reflexivity.
Qed.

Lemma sliceLast_length (n : nat) (l : list A) :
  List.length (sliceLast n l) = Nat.min n (List.length l).
Proof.
  unfold sliceLast. rewrite length_skipn. lia.
Qed.

Lemma sliceLast_sliceLast (n m : nat) (l : list A) :
  (n <= m)%nat -> sliceLast n (sliceLast m l) = sliceLast n l.
Proof.
  intros Hnm. unfold sliceLast. rewrite length_skipn, skipn_skipn.
  f_equal. lia.
Qed.

Lemma sliceLast_incl (n : nat) (l : list A) (x : A) :
  In x (sliceLast n l) -> In x l.
Proof.
  unfold sliceLast. intros H.
  rewrite <- (firstn_skipn (List.length l - n) l).
  apply in_or_app. now right.
Qed.

End SliceLast.

Lemma errorMessage_truthy (v : StreamView) :
  JS.truthy (errorMessage v) = true -> error_truthy v = true.
Proof.
  unfold errorMessage, error_truthy.
  destruct (thread_error v) as [[m|s]|]; simpl; auto.
  destruct (JS.truthy s); auto.
Qed.

(** The ring after an error is recorded: the last five of the old records
    followed by the new one. *)
Lemma recordErrorEffect_history (now : Z) (v : StreamView) (st : BreakerState) :
  JS.truthy (errorMessage v) = true -> isLoading v = false ->
  errorHistory (recordErrorEffect now v st)
  = sliceLast 5 (errorHistory st ++ [mkErrorRecord (errorMessage v) now]).
Proof.
  intros Hm Hl. unfold recordErrorEffect. rewrite Hm, Hl. simpl.
  repeat case_if; reflexivity.
Qed.

Lemma recordErrorEffect_bounded (now : Z) (v : StreamView) (st : BreakerState) :
  (List.length (errorHistory st) <= 5)%nat ->
  (List.length (errorHistory (recordErrorEffect now v st)) <= 5)%nat.
Proof.
  intros Hb. unfold recordErrorEffect.
  case_if; [assumption|].
  repeat case_if; simpl; rewrite sliceLast_length; lia.
Qed.

(** C3.  When an error is recorded with debug mode off and the ring then
    holds at least three records whose last three texts are equal, the
    breaker trips: [shouldStop] is set, the repeated text is the error text,
    and the view is the final one, without the retry button, showing the
    error text itself and the statement that execution stopped. *)
Theorem breaker_trips_on_three_equal_errors :
  forall (now : Z) (v : StreamView) (st : BreakerState),
    JS.truthy (errorMessage v) = true ->
    isLoading v = false ->
    debugMode v = false ->
    (3 <= List.length (errorHistory (recordErrorEffect now v st)))%nat ->
    (exists t, Forall (fun r => error r = t)
                 (sliceLast 3 (errorHistory (recordErrorEffect now v st)))) ->
    let st' := recordErrorEffect now v st in
    let view := renderChatError v st' in
    shouldStop st' = true
    /\ repeatedError st' = Some (errorMessage v)
    /\ view = FinalView finalHeading (errorMessage v) finalFooter
    /\ hasRetry view = false
    /\ In (errorMessage v) (viewText view)
    /\ In finalFooter (viewText view).
Proof.
  intros now v st Hm Hl Hd Hlen [t Ht] st' view.
  pose proof (recordErrorEffect_history now v st Hm Hl) as Hh.
  fold st' in Hh, Hlen, Ht.
  set (new := mkErrorRecord (errorMessage v) now) in *.
  assert (Hlast : sliceLast 3 (errorHistory st')
                  = sliceLast 2 (errorHistory st) ++ [new]).
  { rewrite Hh, sliceLast_sliceLast by lia. apply sliceLast_snoc. }
  assert (Et : t = errorMessage v).
  { rewrite Hlast in Ht. apply Forall_app in Ht. destruct Ht as [_ Hn].
    inversion Hn; subst. reflexivity. }
  subst t.
  assert (Hst : st' = mkBreaker (errorHistory st') (Some (errorMessage v)) true).
  { unfold st' at 1. unfold recordErrorEffect. rewrite Hm, Hl.
    cbn [negb orb]. fold new. rewrite <- Hh.
    apply Nat.leb_le in Hlen. rewrite Hlen, Hd.
    replace (forallb _ _) with true; [reflexivity|].
    symmetry. apply forallb_forall. intros r Hr.
    rewrite Forall_forall in Ht. rewrite (Ht r Hr). apply String.eqb_refl. }
  assert (Hview : view = FinalView finalHeading (errorMessage v) finalFooter).
  { unfold view, renderChatError.
    rewrite (errorMessage_truthy v Hm), Hl, Hst, Hd. simpl. now rewrite Hm. }
  rewrite Hview, Hst. simpl. tauto.
Qed.

Lemma breaker_trips_on_three_equal_errors_witness :
  shouldStop afterThreeTimeouts = true
  /\ repeatedError afterThreeTimeouts = Some "timeout"
  /\ renderChatError timeoutView afterThreeTimeouts
     = FinalView finalHeading "timeout" finalFooter
  /\ hasRetry (renderChatError timeoutView afterThreeTimeouts) = false
  /\ In "timeout" (viewText (renderChatError timeoutView afterThreeTimeouts))
  /\ In finalFooter (viewText (renderChatError timeoutView afterThreeTimeouts)).
Proof.
  apply (breaker_trips_on_three_equal_errors 3 timeoutView afterTwoTimeouts).
  - reflexivity.
  - reflexivity.
  - reflexivity.
  - vm_compute. lia.
  - exists "timeout". vm_compute. repeat constructor.
Defined.

(** C4, as stated, fails: after three "timeout" records have tripped the
    breaker, a fourth error with another text leaves four records in the
    ring. *)
Lemma fourth_distinct_error_keeps_ring :
  shouldStop afterThreeTimeouts = true
  /\ List.length (errorHistory afterThreeTimeouts) = 3%nat
  /\ errorHistory (recordErrorEffect 4 quotaView afterThreeTimeouts) <> []
  /\ List.length (errorHistory (recordErrorEffect 4 quotaView afterThreeTimeouts))
     = 4%nat.
Proof.
  repeat split; try reflexivity. vm_compute. discriminate.
Qed.

Lemma resetEffect_clears (v : StreamView) (st : BreakerState) :
  error_truthy v = false -> isLoading v = false ->
  resetEffect v st = initialBreaker.
Proof.
  intros He Hl. unfold resetEffect. now rewrite He, Hl.
Qed.

(** C4, amended.  A transition with no error and no loading empties the
    ring and untrips the breaker.  An error whose text differs from the
    three equal texts recorded last untrips the breaker and is appended to
    the ring, which keeps its most recent five records. *)
Theorem breaker_reset_on_success_and_untrip_on_new_error :
  forall (now : Z) (v : StreamView) (st : BreakerState),
    (error_truthy v = false -> isLoading v = false ->
       errorHistory (resetEffect v st) = []
       /\ repeatedError (resetEffect v st) = None
       /\ shouldStop (resetEffect v st) = false)
    /\ (forall t,
          JS.truthy (errorMessage v) = true -> isLoading v = false ->
          (3 <= List.length (errorHistory st))%nat ->
          Forall (fun r => error r = t) (sliceLast 3 (errorHistory st)) ->
          errorMessage v <> t ->
          let st' := recordErrorEffect now v st in
          shouldStop st' = false
          /\ repeatedError st' = None
          /\ errorHistory st'
             = sliceLast 5 (errorHistory st ++ [mkErrorRecord (errorMessage v) now])
          /\ In (mkErrorRecord (errorMessage v) now) (errorHistory st')).
Proof.
  intros now v st. split.
  - intros He Hl. rewrite (resetEffect_clears v st He Hl). repeat split.
  - intros t Hm Hl Hlen Ht Hne st'.
    pose proof (recordErrorEffect_history now v st Hm Hl) as Hh. fold st' in Hh.
    set (new := mkErrorRecord (errorMessage v) now) in *.
    assert (Hlast : sliceLast 3 (errorHistory st')
                    = sliceLast 2 (errorHistory st) ++ [new]).
    { rewrite Hh, sliceLast_sliceLast by lia. apply sliceLast_snoc. }
    assert (Hfalse : forallb (fun err => String.eqb (error err) (errorMessage v))
                       (sliceLast 3 (errorHistory st')) = false).
    { rewrite Hlast.
      destruct (sliceLast 2 (errorHistory st)) as [|r rs] eqn:E.
      - apply (f_equal (@List.length _)) in E.
        rewrite sliceLast_length in E. cbn [List.length] in E. lia.
      - assert (Hr : error r = t).
        { rewrite Forall_forall in Ht. apply Ht.
          rewrite <- (sliceLast_sliceLast 2 3) in E by lia.
          apply (sliceLast_incl 2). rewrite E. now left. }
        simpl. rewrite Hr.
        destruct (String.eqb_spec t (errorMessage v)) as [->|_];
          [now contradiction Hne | reflexivity]. }
    assert (Hst : st' = mkBreaker (errorHistory st') None false).
    { unfold st' at 1. unfold recordErrorEffect. rewrite Hm, Hl.
      cbn [negb orb]. fold new. rewrite <- Hh. rewrite Hfalse.
      replace (3 <=? List.length (errorHistory st'))%nat with true; [reflexivity|].
      symmetry. apply Nat.leb_le. rewrite Hh, sliceLast_length, length_app.
      cbn [List.length]. lia. }
    rewrite Hst. simpl. repeat split; auto.
    rewrite Hh. replace 5%nat with (S 4) by reflexivity.
    rewrite sliceLast_snoc. apply in_or_app. right. now left.
Qed.

Lemma breaker_reset_on_success_and_untrip_on_new_error_witness :
  (errorHistory (resetEffect idleView afterThreeTimeouts) = []
   /\ repeatedError (resetEffect idleView afterThreeTimeouts) = None
   /\ shouldStop (resetEffect idleView afterThreeTimeouts) = false)
  /\ (shouldStop (recordErrorEffect 4 quotaView afterThreeTimeouts) = false
      /\ repeatedError (recordErrorEffect 4 quotaView afterThreeTimeouts) = None
      /\ errorHistory (recordErrorEffect 4 quotaView afterThreeTimeouts)
         = sliceLast 5 (errorHistory afterThreeTimeouts
                        ++ [mkErrorRecord (errorMessage quotaView) 4])
      /\ In (mkErrorRecord (errorMessage quotaView) 4)
            (errorHistory (recordErrorEffect 4 quotaView afterThreeTimeouts))).
Proof.
  split.
  - apply (proj1 (breaker_reset_on_success_and_untrip_on_new_error
                    0 idleView afterThreeTimeouts)); reflexivity.
  - apply (proj2 (breaker_reset_on_success_and_untrip_on_new_error
                    4 quotaView afterThreeTimeouts) "timeout").
    + reflexivity.
    + reflexivity.
    + vm_compute. lia.
    + vm_compute. repeat constructor.
    + discriminate.
Defined.

(** ** Chat history store: sorting *)

Lemma insertByUpdated_perm (x : SavedChat) (l : list SavedChat) :
  Permutation (x :: l) (insertByUpdated x l).
Proof.
  induction l as [|y l IH]; simpl.
  - apply Permutation_refl.
  - case_if.
    + eapply perm_trans; [apply perm_swap|]. now apply perm_skip.
    + apply Permutation_refl.
Qed.

Lemma sortByUpdated_perm (l : list SavedChat) :
  Permutation l (sortByUpdated l).
Proof.
  induction l as [|x l IH]; simpl.
  - apply perm_nil.
  - eapply perm_trans; [|apply insertByUpdated_perm]. now apply perm_skip.
Qed.

Lemma insertByUpdated_hd (y x : SavedChat) (l : list SavedChat) :
  HdRel descByUpdated y l -> descByUpdated y x ->
  HdRel descByUpdated y (insertByUpdated x l).
Proof.
  intros Hl Hx. destruct l as [|z l]; simpl.
  - now constructor.
  - case_if; constructor; auto. now inversion Hl.
Qed.

Lemma insertByUpdated_sorted (x : SavedChat) (l : list SavedChat) :
  Sorted descByUpdated l -> Sorted descByUpdated (insertByUpdated x l).
Proof.
  induction 1 as [|y l Hs IH Hhd]; simpl.
  - repeat constructor.
  - case_if.
    + constructor; [assumption|].
      apply insertByUpdated_hd; [assumption|].
      unfold descByUpdated. apply Z.ltb_lt in Heqb. lia.
    + constructor; [now constructor|].
      constructor. unfold descByUpdated. apply Z.ltb_ge in Heqb. lia.
Qed.

Lemma sortByUpdated_sorted (l : list SavedChat) :
  Sorted descByUpdated (sortByUpdated l).
Proof.
  induction l as [|x l IH]; simpl; [constructor|].
  now apply insertByUpdated_sorted.
Qed.

(** A record at least as recent as the head of the list stays in front:
    the sort is stable. *)
Lemma insertByUpdated_front (x : SavedChat) (l : list SavedChat) :
  Forall (fun c => (updatedAt c <= updatedAt x)%Z) l ->
  insertByUpdated x l = x :: l.
Proof.
  intros H. destruct l as [|y l]; simpl; [reflexivity|].
  inversion H; subst.
  replace (updatedAt x <? updatedAt y)%Z with false; [reflexivity|].
  symmetry. apply Z.ltb_ge. assumption.
Qed.

Lemma sortByUpdated_length (l : list SavedChat) :
  List.length (sortByUpdated l) = List.length l.
Proof.
  symmetry. apply Permutation_length, sortByUpdated_perm.
Qed.

#[local] Instance descByUpdated_trans : RelationClasses.Transitive descByUpdated.
Proof.
  intros x y z. unfold descByUpdated. lia.
Qed.

Lemma sorted_firstn (n : nat) (l : list SavedChat) :
  Sorted descByUpdated l -> Sorted descByUpdated (firstn n l).
Proof.
  intros H. apply Sorted_StronglySorted in H; [|exact descByUpdated_trans].
  apply StronglySorted_Sorted. revert n.
  induction H as [|x l Hs IH Hall]; intros [|n]; simpl; try constructor.
  - apply IH.
  - rewrite Forall_forall in *. intros y Hy. apply Hall.
    rewrite <- (firstn_skipn n l). apply in_or_app. now left.
Qed.

Lemma sorted_filter (p : SavedChat -> bool) (l : list SavedChat) :
  Sorted descByUpdated l -> Sorted descByUpdated (filter p l).
Proof.
  intros H. apply Sorted_StronglySorted in H; [|exact descByUpdated_trans].
  apply StronglySorted_Sorted.
  induction H as [|x l Hs IH Hall]; simpl; [constructor|].
  destruct (p x); [|assumption].
  constructor; [assumption|].
  rewrite Forall_forall in *. intros y Hy. apply Hall.
  apply filter_In in Hy. tauto.
Qed.

(** In a sorted list every record of a prefix is at least as recent as
    every record behind it. *)
Lemma sorted_prefix_newer (n : nat) (l : list SavedChat) (kept dropped : SavedChat) :
  Sorted descByUpdated l ->
  In kept (firstn n l) -> In dropped (skipn n l) ->
  (updatedAt dropped <= updatedAt kept)%Z.
Proof.
  intros H. apply Sorted_StronglySorted in H; [|exact descByUpdated_trans].
  revert n. induction H as [|x l Hs IH Hall]; intros n Hk Hd.
  - destruct n; contradiction.
  - destruct n as [|n]; simpl in *; [contradiction|].
    destruct Hk as [<- | Hk].
    + rewrite Forall_forall in Hall. apply Hall.
      rewrite <- (firstn_skipn n l). apply in_or_app. now right.
    + now apply (IH n).
Qed.

(** ** Chat history store: thread identifiers *)

Lemma findIndex_Some {A} (p : A -> bool) (l : list A) (i : nat) :
  findIndex p l = Some i ->
  exists x, nth_error l i = Some x /\ p x = true.
Proof.
  revert i. induction l as [|y l IH]; simpl; intros i H; [discriminate|].
  destruct (p y) eqn:Hy.
  - injection H as <-. now exists y.
  - destruct (findIndex p l) as [j|]; [|discriminate].
    injection H as <-. now apply IH.
Qed.

Lemma findIndex_None {A} (p : A -> bool) (l : list A) :
  findIndex p l = None -> forall x, In x l -> p x = false.
Proof.
  induction l as [|y l IH]; simpl; intros H x Hx; [contradiction|].
  destruct (p y) eqn:Hy; [discriminate|].
  destruct (findIndex p l); [discriminate|].
  destruct Hx as [<- | Hx]; auto.
Qed.

Lemma setAt_length {A} (i : nat) (x : A) (l : list A) :
  List.length (setAt i x l) = List.length l.
Proof.
  revert i. induction l as [|y l IH]; intros [|i]; simpl; auto.
Qed.

(** Overwriting the record found for a thread with a record of the same
    thread leaves the sequence of thread identifiers as it was. *)
Lemma setAt_threadIds (l : list SavedChat) (i : nat) (old x : SavedChat) :
  nth_error l i = Some old -> threadId x = threadId old ->
  map threadId (setAt i x l) = map threadId l.
Proof.
  revert i. induction l as [|y l IH]; intros [|i]; simpl; try discriminate.
  - intros [= ->] ->. reflexivity.
  - intros Hn Hx. f_equal. now apply IH.
Qed.

(** With unique identifiers, the only record of thread [tid] after the
    overwrite is the record written. *)
Lemma setAt_only (tid : string) (l : list SavedChat) (i : nat) (x r : SavedChat) :
  NoDup (map threadId l) ->
  findIndex (isThread tid) l = Some i ->
  In r (setAt i x l) -> threadId r = tid -> r = x.
Proof.
  revert i. induction l as [|y l IH]; simpl; intros i Hnd Hf Hr Ht;
    [discriminate|].
  inversion Hnd as [|? ? Hnotin Hnd']; subst.
  unfold isThread in Hf at 1.
  destruct (String.eqb_spec (threadId y) (threadId r)) as [Ey|Ey].
  - injection Hf as <-. destruct Hr as [<- | Hr]; [reflexivity|].
    exfalso. apply Hnotin. rewrite Ey. now apply in_map.
  - destruct (findIndex (isThread (threadId r)) l) as [j|] eqn:Ej;
      [|discriminate].
    injection Hf as <-. destruct Hr as [<- | Hr]; [now contradiction Ey|].
    now apply (IH j).
Qed.

Lemma nodup_firstn {A} (n : nat) (l : list A) :
  NoDup l -> NoDup (firstn n l).
Proof.
  intros H. rewrite <- (firstn_skipn n l) in H.
  now apply NoDup_app_remove_r in H.
Qed.

(** Removing records keeps the thread identifiers distinct. *)
Lemma threadIds_filter_nodup (keep : SavedChat -> bool) (l : list SavedChat) :
  NoDup (map threadId l) -> NoDup (map threadId (filter keep l)).
Proof.
  intros Hnd. induction l as [|c l IH]; [constructor|].
  cbn [map] in Hnd. apply NoDup_cons_iff in Hnd. destruct Hnd as [Hfresh Hnd].
  cbn [filter]. destruct (keep c); [|now apply IH].
  cbn [map]. apply NoDup_cons; [|now apply IH].
  intros Hin. apply Hfresh.
  apply in_map_iff in Hin. destruct Hin as (c' & Hid & Hc').
  apply filter_In in Hc'. apply in_map_iff. exists c'. tauto.
Qed.

Lemma updateTitle_threadIds (env : CallEnv) (tid ttl : string) (l : list SavedChat) :
  map threadId
    (map (fun chat =>
            if String.eqb (threadId chat) tid
            then mkChat (threadId chat) ttl (createdAt chat) (now env)
                   (firstMessage chat)
            else chat) l)
  = map threadId l.
Proof.
  rewrite map_map. apply map_ext. intros c. now case_if.
Qed.

(** ** Chat history store: the invariant is kept *)

Lemma mutationList_length (env : CallEnv) (m : Mutation) (l : list SavedChat) :
  (List.length (mutationList env m l) <= S (List.length l))%nat.
Proof.
  destruct m as [tid fm ct | tid | tid ttl]; simpl.
  - unfold saveChatSorted. rewrite sortByUpdated_length.
    destruct (findIndex _ l) as [i|]; simpl; [|lia].
    destruct (nth_error l i); [rewrite setAt_length|]; lia.
  - unfold deleteChatList. pose proof (filter_length_le
      (fun chat => negb (String.eqb (threadId chat) tid)) l). lia.
  - unfold updateChatTitleSorted.
    rewrite sortByUpdated_length, length_map. lia.
Qed.

Lemma mutationList_sorted (env : CallEnv) (m : Mutation) (l : list SavedChat) :
  Sorted descByUpdated l -> Sorted descByUpdated (mutationList env m l).
Proof.
  intros Hs. destruct m as [tid fm ct | tid | tid ttl]; simpl.
  - apply sortByUpdated_sorted.
  - now apply sorted_filter.
  - apply sortByUpdated_sorted.
Qed.

Lemma mutationList_nodup (env : CallEnv) (m : Mutation) (l : list SavedChat) :
  NoDup (map threadId l) -> NoDup (map threadId (mutationList env m l)).
Proof.
  intros Hnd. destruct m as [tid fm ct | tid | tid ttl]; simpl.
  - unfold saveChatSorted.
    eapply Permutation_NoDup;
      [apply Permutation_map, sortByUpdated_perm|].
    destruct (findIndex _ l) as [i|] eqn:Ef.
    + destruct (findIndex_Some _ _ _ Ef) as (old & Hn & _). rewrite Hn.
      now rewrite (setAt_threadIds l i old).
    + simpl. constructor; [|assumption].
      intros Hin. apply in_map_iff in Hin. destruct Hin as (c & Hc & Hin).
      pose proof (findIndex_None _ _ Ef c Hin) as Hp. simpl in Hp.
      rewrite Hc, String.eqb_refl in Hp. discriminate.
  - now apply threadIds_filter_nodup.
  - unfold updateChatTitleSorted.
    eapply Permutation_NoDup;
      [apply Permutation_map, sortByUpdated_perm|].
    now rewrite updateTitle_threadIds.
Qed.

Lemma storeOk_limited (env : CallEnv) (m : Mutation) (l : list SavedChat) :
  Sorted descByUpdated l -> NoDup (map threadId l) ->
  storeOk (firstn MAX_CHATS (mutationList env m l)).
Proof.
  intros Hs Hnd. repeat split.
  - apply firstn_le_length.
  - apply sorted_firstn. now apply mutationList_sorted.
  - rewrite <- firstn_map. apply nodup_firstn. now apply mutationList_nodup.
Qed.

Lemma applyMutation_ok (em : CallEnv * Mutation) (b : Browser) :
  browserOk b -> browserOk (applyMutation em b).
Proof.
  intros [(Hlen & Hs & Hnd) Hdisk].
  pose proof (storeOk_limited (fst em) (snd em) (chats b) Hs Hnd) as Hok.
  unfold applyMutation, commitChats, browserOk. simpl.
  split; [assumption|].
  destruct (storageAccepts (fst em)); simpl; assumption.
Qed.

Lemma runMutations_ok (ms : list (CallEnv * Mutation)) (b : Browser) :
  browserOk b -> browserOk (runMutations ms b).
Proof.
  revert b. induction ms as [|em ms IH]; intros b Hb; simpl; [assumption|].
  apply IH. now apply applyMutation_ok.
Qed.

(** Loading the durable record into a fresh view keeps the invariant. *)
Lemma historyEffect_ok (b : Browser) :
  browserOk b -> browserOk (historyEffect b).
Proof.
  intros [Hmem Hdisk]. unfold historyEffect, browserOk.
  destruct (user (auth b)); simpl.
  - destruct (ls_chat_history (storage b)) as [l|] eqn:El; simpl;
      rewrite ?El; split; auto.
    + destruct Hdisk as (Hlen & Hs & Hnd). repeat split.
      * now rewrite sortByUpdated_length.
      * apply sortByUpdated_sorted.
      * eapply Permutation_NoDup;
          [apply Permutation_map, sortByUpdated_perm | assumption].
    + repeat split; simpl; try constructor. unfold MAX_CHATS. lia.
  - split; auto. repeat split; simpl; try constructor. unfold MAX_CHATS. lia.
Qed.

(** C6.  Starting from a store that satisfies the invariant (the empty
    store does), after any sequence of [saveChat], [updateChatTitle] and
    [deleteChat] calls the in-memory view and the durable record hold at
    most [MAX_CHATS] records, are sorted descending by [updatedAt] and have
    no [threadId] twice; and what a further mutation cuts off beyond
    [MAX_CHATS] is never more recent than what it keeps. *)
Theorem history_store_invariant :
  forall (b : Browser) (ms : list (CallEnv * Mutation)),
    browserOk b ->
    let b' := runMutations ms b in
    ((List.length (chats b') <= 50)%nat
     /\ Sorted descByUpdated (chats b')
     /\ NoDup (map threadId (chats b')))
    /\ browserOk b'
    /\ forall (em : CallEnv * Mutation) (kept dropped : SavedChat),
         let full := mutationList (fst em) (snd em) (chats b') in
         chats (applyMutation em b') = firstn MAX_CHATS full
         /\ (In kept (chats (applyMutation em b')) ->
             In dropped (skipn MAX_CHATS full) ->
             (updatedAt dropped <= updatedAt kept)%Z).
Proof.
  intros b ms Hb b'.
  pose proof (runMutations_ok ms b Hb) as Hb'. fold b' in Hb'.
  split; [exact (proj1 Hb')|]. split; [assumption|].
  intros em kept dropped full. split; [reflexivity|].
  intros Hk Hd.
  apply (sorted_prefix_newer MAX_CHATS full); auto.
  apply mutationList_sorted. apply Hb'.
Qed.

Lemma emptyBrowser_ok : browserOk emptyBrowser.
Proof.
  repeat split; simpl; try constructor. unfold MAX_CHATS. lia.
Qed.

Lemma history_store_invariant_witness :
  browserOk emptyBrowser
  /\ (List.length (chats (runMutations fiftyOneThreads emptyBrowser)) <= 50)%nat
  /\ Sorted descByUpdated (chats (runMutations fiftyOneThreads emptyBrowser))
  /\ NoDup (map threadId (chats (runMutations fiftyOneThreads emptyBrowser))).
Proof.
  assert (H : browserOk emptyBrowser).
  { repeat split; simpl; try constructor. unfold MAX_CHATS. lia. }
  split; [exact H|].
  exact (proj1 (history_store_invariant emptyBrowser fiftyOneThreads H)).
Defined.

(** 51 threads created one after the other: 50 are kept, thread 1, the
    least recently updated, is gone, thread 51 is first. *)
Example fifty_one_threads_keep_fifty :
  let b := runMutations fiftyOneThreads emptyBrowser in
  List.length (chats b) = 50%nat
  /\ existsb (isThread (threadName 1)) (chats b) = false
  /\ existsb (isThread (threadName 2)) (chats b) = true
  /\ option_map threadId (hd_error (chats b)) = Some (threadName 51)
  /\ ls_chat_history (storage b) = Some (chats b).
Proof.
  vm_compute. repeat split.
Qed.

(** ** Chat history store: two writes to one thread *)

Lemma filter_perm {A} (p : A -> bool) (l l' : list A) :
  Permutation l l' -> Permutation (filter p l) (filter p l').
Proof.
  induction 1 as [|x l l' _ IH | x y l | l l' l'' _ IH1 _ IH2]; simpl.
  - constructor.
  - destruct (p x); auto.
  - destruct (p x), (p y); auto using perm_swap, Permutation_refl.
  - eapply perm_trans; eassumption.
Qed.

Lemma filter_perm_single {A} (p : A -> bool) (l l' : list A) (a : A) :
  Permutation l l' -> filter p l = [a] -> filter p l' = [a].
Proof.
  intros Hp Hf. apply Permutation_length_1_inv.
  rewrite <- Hf. now apply filter_perm.
Qed.

Lemma filter_isThread_absent (tid : string) (l : list SavedChat) :
  ~ In tid (map threadId l) -> filter (isThread tid) l = [].
Proof.
  induction l as [|c l IH]; simpl; intros H; [reflexivity|].
  unfold isThread at 1.
  destruct (String.eqb_spec (threadId c) tid) as [E|_]; [tauto|].
  apply IH. tauto.
Qed.

Lemma findIndex_isThread_absent (tid : string) (l : list SavedChat) :
  ~ In tid (map threadId l) -> findIndex (isThread tid) l = None.
Proof.
  induction l as [|c l IH]; simpl; intros H; [reflexivity|].
  unfold isThread at 1.
  destruct (String.eqb_spec (threadId c) tid) as [E|_]; [tauto|].
  rewrite IH by tauto. reflexivity.
Qed.

(** A kept prefix that contains the only record of a thread contains it
    as its only record of that thread. *)
Lemma filter_firstn_single {A} (p : A -> bool) (n : nat) (l : list A) (a : A) :
  filter p l = [a] -> In a (firstn n l) -> filter p (firstn n l) = [a].
Proof.
  intros Hf Hin.
  assert (Hp : p a = true).
  { assert (Ha : In a (filter p l)) by (rewrite Hf; now left).
    apply filter_In in Ha. tauto. }
  rewrite <- (firstn_skipn n l), filter_app in Hf.
  apply app_eq_unit in Hf. destruct Hf as [[Hnil _] | [Hone _]]; [|assumption].
  assert (Ha : In a (filter p (firstn n l))) by (apply filter_In; auto).
  rewrite Hnil in Ha. contradiction.
Qed.

Lemma filter_setAt_found {A} (p : A -> bool) (l : list A) (i : nat) (a x : A) :
  findIndex p l = Some i -> p x = true -> filter p l = [a] ->
  filter p (setAt i x l) = [x].
Proof.
  revert i. induction l as [|y l IH]; simpl; intros i Hf Hx Ha; [discriminate|].
  destruct (p y) eqn:Hy.
  - injection Hf as <-. simpl. rewrite Hx.
    injection Ha as _ Ha. now rewrite Ha.
  - destruct (findIndex p l) as [j|]; [|discriminate].
    injection Hf as <-. simpl. rewrite Hy. now apply (IH j).
Qed.

Lemma findIndex_of_filter {A} (p : A -> bool) (l : list A) (a : A) :
  filter p l = [a] ->
  exists i, findIndex p l = Some i /\ nth_error l i = Some a.
Proof.
  induction l as [|y l IH]; simpl; intros Ha; [discriminate|].
  destruct (p y) eqn:Hy.
  - injection Ha as -> _. now exists 0%nat.
  - destruct (IH Ha) as (i & Hi & Hn). exists (S i). now rewrite Hi.
Qed.

(** The first write of a new thread leaves exactly its record for that
    thread, provided the record is not cut off: the store has room, or no
    stored record is more recent than the clock reading of the call. *)
Lemma saveChat_new_thread (env : CallEnv) (tid : string)
    (fm ct : option string) (b : Browser) :
  ~ In tid (map threadId (chats b)) ->
  (List.length (chats b) < MAX_CHATS)%nat
  \/ Forall (fun c => (updatedAt c <= now env)%Z) (chats b) ->
  filter (isThread tid) (chats (saveChat env tid fm ct b))
  = [mkChat tid (saveChatTitle (today env) fm ct) (now env) (now env) fm].
Proof.
  intros Hnew Hroom.
  set (r := mkChat tid (saveChatTitle (today env) fm ct) (now env) (now env) fm).
  assert (Hl : saveChatSorted env tid fm ct (chats b)
               = sortByUpdated (r :: chats b)).
  { unfold saveChatSorted. fold (isThread tid).
    now rewrite (findIndex_isThread_absent tid (chats b) Hnew). }
  unfold saveChat, commitChats. cbn [chats]. rewrite Hl.
  assert (Hf : filter (isThread tid) (sortByUpdated (r :: chats b)) = [r]).
  { apply (filter_perm_single _ (r :: chats b)); [apply sortByUpdated_perm|].
    simpl. unfold isThread at 1. simpl. rewrite String.eqb_refl.
    now rewrite filter_isThread_absent. }
  apply filter_firstn_single; [assumption|].
  destruct Hroom as [Hlt | Hall].
  - rewrite firstn_all2.
    + apply (Permutation_in r (sortByUpdated_perm (r :: chats b))). now left.
    + rewrite sortByUpdated_length. simpl. lia.
  - simpl. rewrite insertByUpdated_front; [now left|].
    eapply Permutation_Forall; [apply sortByUpdated_perm | exact Hall].
Qed.

(** A write to a thread that has exactly one record in a store within the
    cap overwrites that record, keeping [createdAt]. *)
Lemma saveChat_existing_thread (env : CallEnv) (tid : string)
    (fm ct : option string) (b : Browser) (old : SavedChat) :
  filter (isThread tid) (chats b) = [old] ->
  (List.length (chats b) <= MAX_CHATS)%nat ->
  filter (isThread tid) (chats (saveChat env tid fm ct b))
  = [mkChat (threadId old) (saveChatTitle (today env) fm ct) (createdAt old)
       (now env) (if JS.truthy_opt fm then fm else firstMessage old)].
Proof.
  intros Hold Hlen.
  destruct (findIndex_of_filter _ _ _ Hold) as (i & Hi & Hn).
  assert (Hp : isThread tid old = true).
  { assert (Ha : In old (filter (isThread tid) (chats b)))
      by (rewrite Hold; now left).
    apply filter_In in Ha. tauto. }
  unfold saveChat, commitChats, saveChatSorted. cbn [chats].
  fold (isThread tid). rewrite Hi, Hn.
  rewrite firstn_all2 by (rewrite sortByUpdated_length, setAt_length; exact Hlen).
  eapply filter_perm_single; [apply sortByUpdated_perm|].
  apply (filter_setAt_found _ _ _ old); auto.
Qed.

(** C7, as stated, fails within one instance of the hook.  For a thread
    that is already stored, two writes at the times 20 and 30 leave
    [createdAt] as stored (3), not the time of the first call.  On a full
    store whose records are all more recent than both calls, each write is
    cut off by the cap and no record of the thread remains. *)
Lemma saveChat_twice_createdAt_not_first_call :
  map threadId (filter (isThread (threadName 3)) (chats aliceTenChats))
  = [threadName 3]
  /\ map (fun r => (createdAt r, updatedAt r))
       (filter (isThread (threadName 3))
          (chats (saveChat (envAt 30) (threadName 3) (Some "again") None
                    (saveChat (envAt 20) (threadName 3) (Some "hello") None
                       aliceTenChats))))
     = [(3%Z, 30%Z)]
  /\ List.length (chats fiftyLaterThreads) = 50%nat
  /\ filter (isThread "thread-x")
       (chats (saveChat (envAt 20) "thread-x" (Some "again") None
                 (saveChat (envAt 10) "thread-x" (Some "hello") None
                    fiftyLaterThreads)))
     = [].
Proof.
  repeat split; vm_compute; reflexivity.
Qed.

(** Across two instances of the hook the record is created again: [Chat]
    writes the thread at time 10; the sidebar, whose view was loaded before
    that write, writes it at time 20 and stores [createdAt] 20. *)
Example saveChat_twice_across_instances :
  ls_chat_history
    (storage
       (saveChat (envAt 20) "thread-1" (Some "hello") (Some "Trip")
          (otherInstance (chats aliceBrowser)
             (saveChat (envAt 10) "thread-1" None None aliceBrowser))))
  = Some [mkChat "thread-1" "Trip" 20 20 (Some "hello")].
Proof.
  vm_compute. reflexivity.
Qed.

(** C7, amended.  Two calls of [saveChat] for a thread [T] through one
    instance of the hook leave exactly one record for [T], with the clock
    reading of the second call as [updatedAt], in two cases.  When [T] is
    not stored and its first record survives the cut to [MAX_CHATS] (the
    store has room, or no stored record is more recent than the first
    call), [createdAt] is the clock reading of the first call.  When [T] is
    stored once in a store within the cap, [createdAt] is that of the
    stored record. *)
Theorem saveChat_twice_one_record :
  forall (env1 env2 : CallEnv) (T : string) (m1 m2 c1 c2 : option string)
         (b : Browser),
    (~ In T (map threadId (chats b)) ->
     (List.length (chats b) < MAX_CHATS)%nat
     \/ Forall (fun c => (updatedAt c <= now env1)%Z) (chats b) ->
     exists r,
       filter (isThread T)
         (chats (saveChat env2 T m2 c2 (saveChat env1 T m1 c1 b))) = [r]
       /\ threadId r = T
       /\ createdAt r = now env1
       /\ updatedAt r = now env2)
    /\ (forall old,
          filter (isThread T) (chats b) = [old] ->
          (List.length (chats b) <= MAX_CHATS)%nat ->
          exists r,
            filter (isThread T)
              (chats (saveChat env2 T m2 c2 (saveChat env1 T m1 c1 b))) = [r]
            /\ threadId r = T
            /\ createdAt r = createdAt old
            /\ updatedAt r = now env2).
Proof.
  intros env1 env2 T m1 m2 c1 c2 b.
  assert (Hcap : (List.length (chats (saveChat env1 T m1 c1 b)) <= MAX_CHATS)%nat).
  { unfold saveChat, commitChats. cbn [chats]. apply firstn_le_length. }
  split.
  - intros Hnew Hroom.
    pose proof (saveChat_new_thread env1 T m1 c1 b Hnew Hroom) as H1.
    eexists. split.
    + exact (saveChat_existing_thread env2 T m2 c2 _ _ H1 Hcap).
    + cbn [threadId createdAt updatedAt]. auto.
  - intros old Hold Hlen.
    pose proof (saveChat_existing_thread env1 T m1 c1 b old Hold Hlen) as H1.
    assert (HT : threadId old = T).
    { assert (Ha : In old (filter (isThread T) (chats b)))
        by (rewrite Hold; now left).
      apply filter_In in Ha. destruct Ha as [_ Ha].
      now apply String.eqb_eq in Ha. }
    eexists. split.
    + exact (saveChat_existing_thread env2 T m2 c2 _ _ H1 Hcap).
    + cbn [threadId createdAt updatedAt]. auto.
Qed.

Lemma saveChat_twice_one_record_witness :
  (exists r,
     filter (isThread "thread-1")
       (chats (saveChat (envAt 20) "thread-1" (Some "again") None
                 (saveChat (envAt 10) "thread-1" (Some "hello") None
                    emptyBrowser))) = [r]
     /\ threadId r = "thread-1"
     /\ createdAt r = 10%Z
     /\ updatedAt r = 20%Z)
  /\ (exists r,
        filter (isThread (threadName 3))
          (chats (saveChat (envAt 30) (threadName 3) (Some "again") None
                    (saveChat (envAt 20) (threadName 3) (Some "hello") None
                       aliceTenChats))) = [r]
        /\ threadId r = threadName 3
        /\ createdAt r = 3%Z
        /\ updatedAt r = 30%Z).
Proof.
  split.
  - apply (proj1 (saveChat_twice_one_record (envAt 10) (envAt 20) "thread-1"
                    (Some "hello") (Some "again") None None emptyBrowser)).
    + simpl. tauto.
    + left. simpl. unfold MAX_CHATS. lia.
  - apply (proj2 (saveChat_twice_one_record (envAt 20) (envAt 30) (threadName 3)
                    (Some "hello") (Some "again") None None aliceTenChats)
             (mkChat (threadName 3) (placeholderTitle "01.11.2026") 3 3 None)).
    + vm_compute. reflexivity.
    + vm_compute. lia.
Defined.

(** ** Chat history store: the title of the record written *)

Lemma nonBlank_true (o : option string) (s : string) :
  o = Some s -> JS.trim s <> "" -> nonBlank o = true.
Proof.
  intros -> Hne. unfold nonBlank.
  assert (Hs : JS.truthy s = true) by (destruct s; [now contradiction Hne | reflexivity]).
  apply truthy_true_iff in Hne. now rewrite Hs, Hne.
Qed.

Lemma nonBlank_false (o : option string) :
  isBlank o -> nonBlank o = false.
Proof.
  intros Hb. destruct o as [s|]; simpl; [|reflexivity].
  rewrite (Hb s eq_refl). simpl. apply andb_false_r.
Qed.

Lemma slice0_truthy (n : nat) (s : string) :
  JS.truthy (JS.slice0 (S n) s) = JS.truthy s.
Proof.
  destruct s; reflexivity.
Qed.

Section TitlePrecedence.

Variables (day : string) (fm ct : option string).

Lemma saveChatTitle_explicit (t : string) :
  ct = Some t -> JS.trim t <> "" ->
  saveChatTitle day fm ct = JS.slice0 100 (JS.trim t).
Proof.
  intros Hct Hne. unfold saveChatTitle.
  rewrite (nonBlank_true ct t Hct Hne). now rewrite Hct.
Qed.

Lemma saveChatTitle_preview (m : string) :
  isBlank ct -> fm = Some m -> JS.trim m <> "" -> cleanMessage m <> "" ->
  saveChatTitle day fm ct = JS.slice0 100 (cleanMessage m).
Proof.
  intros Hct Hfm Hne Hclean. unfold saveChatTitle.
  rewrite (nonBlank_false ct Hct), (nonBlank_true fm m Hfm Hne), Hfm.
  cbn [orEmpty]. rewrite slice0_truthy.
  apply truthy_true_iff in Hclean. now rewrite Hclean.
Qed.

Lemma saveChatTitle_placeholder :
  isBlank ct ->
  isBlank fm \/ (exists m, fm = Some m /\ cleanMessage m = "") ->
  saveChatTitle day fm ct = placeholderTitle day.
Proof.
  intros Hct Hfm. unfold saveChatTitle. rewrite (nonBlank_false ct Hct).
  destruct Hfm as [Hb | (m & -> & Hclean)].
  - now rewrite (nonBlank_false fm Hb).
  - cbn [orEmpty]. rewrite Hclean. simpl. now case_if.
Qed.

End TitlePrecedence.

Lemma in_firstn {A} (n : nat) (l : list A) (x : A) :
  In x (firstn n l) -> In x l.
Proof.
  intros H. rewrite <- (firstn_skipn n l). apply in_or_app. now left.
Qed.

(** With unique identifiers, the record of thread [tid] in the store after
    [saveChat] carries the title computed by the call. *)
Lemma saveChat_record_title (env : CallEnv) (tid : string)
    (fm ct : option string) (b : Browser) (r : SavedChat) :
  NoDup (map threadId (chats b)) ->
  In r (chats (saveChat env tid fm ct b)) -> threadId r = tid ->
  title r = saveChatTitle (today env) fm ct.
Proof.
  intros Hnd Hin Ht. unfold saveChat, commitChats in Hin. cbn [chats] in Hin.
  apply in_firstn in Hin. unfold saveChatSorted in Hin.
  apply (Permutation_in r (Permutation_sym (sortByUpdated_perm _))) in Hin.
  fold (isThread tid) in Hin.
  destruct (findIndex (isThread tid) (chats b)) as [i|] eqn:Ef.
  - destruct (findIndex_Some _ _ _ Ef) as (old & Hn & _). rewrite Hn in Hin.
    now rewrite (setAt_only tid (chats b) i _ r Hnd Ef Hin Ht).
  - destruct Hin as [<- | Hin]; [reflexivity|].
    pose proof (findIndex_None _ _ Ef r Hin) as Hp.
    unfold isThread in Hp. rewrite Ht, String.eqb_refl in Hp. discriminate.
Qed.



Example saveChatTitle_examples :
  saveChatTitle "01.11.2026" (Some "<task>plan</task>") (Some "  My chat ")
  = "My chat"
  /\ saveChatTitle "01.11.2026" (Some "<task>plan</task>") (Some "   ")
     = "plan"
  /\ saveChatTitle "01.11.2026" (Some "<task> </task>") None
     = placeholderTitle "01.11.2026"
  /\ saveChatTitle "01.11.2026" None None = placeholderTitle "01.11.2026".
Proof.
  repeat split; reflexivity.
Qed.

(** ** Logout and change of identity *)

Lemma logout_clears (b : Browser) (u : User) :
  user (auth b) = Some u ->
  ls_chat_history (storage (logoutAndRender b)) = None
  /\ chats (logoutAndRender b) = []
  /\ user (auth (logoutAndRender b)) = None.
Proof.
  intros Hu. unfold logoutAndRender. rewrite Hu. repeat split.
Qed.

Lemma login_other_identity_clears (b : Browser) (u : User) (data : LoginData) :
  user (auth b) = Some u -> user_id u <> "" -> user_id u <> ld_user_id data ->
  exists b',
    loginAndRender (LoginAccepted data) b = (Normal tt, b')
    /\ ls_chat_history (storage b') = None
    /\ chats b' = []
    /\ option_map user_id (user (auth b')) = Some (ld_user_id data).
Proof.
  intros Hu Hid Hne. unfold loginAndRender, login, user_id_of.
  rewrite Hu. simpl.
  apply truthy_true_iff in Hid. rewrite Hid.
  apply String.eqb_neq in Hne. rewrite Hne. simpl.
  eexists. split; [reflexivity|]. repeat split.
Qed.

(** On the two paths the claim C9 names the store is cleared: for a
    logged-in user, once [logout] has completed the durable chat history is
    removed and the in-memory view is empty; and a [login] accepted for an
    identity other than the one held in the authentication state removes
    the durable chat history and leaves the view empty. *)
Lemma logout_and_identity_change_clear_history :
  forall (b : Browser) (u : User),
    user (auth b) = Some u ->
    (ls_chat_history (storage (logoutAndRender b)) = None
     /\ chats (logoutAndRender b) = []
     /\ user (auth (logoutAndRender b)) = None)
    /\ (forall data,
          user_id u <> "" -> user_id u <> ld_user_id data ->
          exists b',
            loginAndRender (LoginAccepted data) b = (Normal tt, b')
            /\ ls_chat_history (storage b') = None
            /\ chats b' = []
            /\ option_map user_id (user (auth b')) = Some (ld_user_id data)).
Proof.
  intros b u Hu. split.
  - now apply (logout_clears b u).
  - intros data. now apply login_other_identity_clears.
Qed.

(** Logout while ten chats are stored, and a login over Alice's session. *)
Example alice_logout_and_bob_login :
  List.length (chats aliceTenChats) = 10%nat
  /\ (ls_chat_history (storage (logoutAndRender aliceTenChats)) = None
      /\ chats (logoutAndRender aliceTenChats) = []
      /\ user (auth (logoutAndRender aliceTenChats)) = None)
  /\ exists b',
       loginAndRender (LoginAccepted bobLogin) aliceTenChats = (Normal tt, b')
       /\ ls_chat_history (storage b') = None
       /\ chats b' = []
       /\ option_map user_id (user (auth b')) = Some "bob".
Proof.
  split; [reflexivity|]. split.
  - apply (proj1 (logout_and_identity_change_clear_history
                    aliceTenChats alice eq_refl)).
  - apply (proj2 (logout_and_identity_change_clear_history
                    aliceTenChats alice eq_refl) bobLogin); discriminate.
Qed.

(** C9, at the failing input.  Alice has ten chats stored; when the page
    is loaded again her saved token is rejected: she is signed out, the
    durable chat history stays.  Bob then logs in; [login] finds nobody
    logged in, compares nothing, and the view of Bob's session is loaded
    with Alice's ten chats. *)
Theorem rejected_token_then_login_shows_previous_chats :
  let expired := verifyTokenRejectedAndRender aliceReturns in
  List.length (chats aliceTenChats) = 10%nat
  /\ ls_chat_history (storage aliceReturns) = Some (chats aliceTenChats)
  /\ user (auth expired) = None
  /\ chats expired = []
  /\ ls_chat_history (storage expired) = Some (chats aliceTenChats)
  /\ exists b',
       loginAndRender (LoginAccepted bobLogin) expired = (Normal tt, b')
       /\ option_map user_id (user (auth b')) = Some "bob"
       /\ ls_chat_history (storage b') = Some (chats aliceTenChats)
       /\ chats b' = chats aliceTenChats.
Proof.
  repeat split. eexists. repeat split.
Qed.

(** ** Thread-id assignment and the session registry *)

(** The state after the four synchronous steps of [onThreadId]. *)
Lemma onThreadId_visible (env : CallEnv) (debug : bool) (net : FetchOutcome)
    (tid : string) (p : ChatPage) :
  visibleFlow (snd (onThreadId env debug net tid p))
  = (Some tid, Some tid, threadPath tid, saveChat env tid None None (browser p)).
Proof.
  unfold onThreadId, bind, setCurrentThreadId, onThreadIdChange, navigate,
    saveChatInPage, update. cbn [fst snd browser auth saveChat commitChats].
  case_if; [|reflexivity].
  destruct net as [reason | ok status body]; [reflexivity|].
  destruct ok, body as [j|], debug; reflexivity.
Qed.

(** [onThreadId] never throws. *)
Lemma onThreadId_returns (env : CallEnv) (debug : bool) (net : FetchOutcome)
    (tid : string) (p : ChatPage) :
  fst (onThreadId env debug net tid p) = Normal tt.
Proof.
  unfold onThreadId, bind, setCurrentThreadId, onThreadIdChange, navigate,
    saveChatInPage, update. cbn [fst snd browser auth saveChat commitChats].
  case_if; [|reflexivity].
  destruct net as [reason | ok status body]; [reflexivity|].
  destruct ok, body as [j|], debug; reflexivity.
Qed.

Lemma onThreadId_failure_logged (env : CallEnv) (debug : bool)
    (net : FetchOutcome) (tid : string) (p : ChatPage) :
  registrationFails net ->
  registrationAttempted (auth (browser p)) = true ->
  In diagnosticOfOnThreadId (console (snd (onThreadId env debug net tid p)))
  /\ debugMessages (snd (onThreadId env debug net tid p)) = debugMessages p.
Proof.
  intros Hfail Hatt.
  unfold onThreadId, bind, setCurrentThreadId, onThreadIdChange, navigate,
    saveChatInPage, update. cbn [fst snd browser auth saveChat commitChats].
  rewrite Hatt.
  destruct net as [reason | ok status body]; simpl in Hfail.
  - split; [|reflexivity]. simpl.
    repeat (apply in_or_app; right). now left.
  - subst ok. split; [|reflexivity]. simpl.
    rewrite !in_app_iff. simpl. tauto.
Qed.

Lemma onThreadId_not_attempted (env : CallEnv) (debug : bool)
    (net : FetchOutcome) (tid : string) (p : ChatPage) :
  registrationAttempted (auth (browser p)) = false ->
  console (snd (onThreadId env debug net tid p)) = console p
  /\ debugMessages (snd (onThreadId env debug net tid p)) = debugMessages p.
Proof.
  intros Hatt.
  unfold onThreadId, bind, setCurrentThreadId, onThreadIdChange, navigate,
    saveChatInPage, update. cbn [fst snd browser auth saveChat commitChats].
  rewrite Hatt. split; reflexivity.
Qed.

(** C10.  When the registry call made on a thread-id assignment fails
    (the request is rejected, or the answer is not 2xx), [onThreadId]
    returns normally; the thread is the active one, the parent is told,
    the location is the thread's and the history store holds the result of
    [saveChat], exactly as for any other answer of the registry; no debug
    message is added; and the failure is written to the console as an
    error. *)
Theorem onThreadId_registration_failure_swallowed :
  forall (env : CallEnv) (debug : bool) (net : FetchOutcome) (tid : string)
         (p : ChatPage),
    registrationFails net ->
    registrationAttempted (auth (browser p)) = true ->
    let result := onThreadId env debug net tid p in
    fst result = Normal tt
    /\ visibleFlow (snd result)
       = (Some tid, Some tid, threadPath tid,
          saveChat env tid None None (browser p))
    /\ (forall net' debug',
          visibleFlow (snd (onThreadId env debug' net' tid p))
          = visibleFlow (snd result))
    /\ debugMessages (snd result) = debugMessages p
    /\ In diagnosticOfOnThreadId (console (snd result)).
Proof.
  intros env debug net tid p Hfail Hatt result.
  destruct (onThreadId_failure_logged env debug net tid p Hfail Hatt)
    as [Hlog Hdbg].
  repeat split.
  - apply onThreadId_returns.
  - apply onThreadId_visible.
  - intros net' debug'. unfold result. now rewrite !onThreadId_visible.
  - exact Hdbg.
  - exact Hlog.
Qed.

Lemma onThreadId_registration_failure_swallowed_witness :
  let result :=
    onThreadId (envAt 10) true (FetchResponse false 503 None) "thread-1"
      alicePage in
  fst result = Normal tt
  /\ visibleFlow (snd result)
     = (Some "thread-1", Some "thread-1", threadPath "thread-1",
        saveChat (envAt 10) "thread-1" None None aliceBrowser)
  /\ (forall net' debug',
        visibleFlow (snd (onThreadId (envAt 10) debug' net' "thread-1" alicePage))
        = visibleFlow (snd result))
  /\ debugMessages (snd result) = []
  /\ In diagnosticOfOnThreadId (console (snd result)).
Proof.
  apply (onThreadId_registration_failure_swallowed (envAt 10) true
           (FetchResponse false 503 None) "thread-1" alicePage).
  - reflexivity.
  - reflexivity.
Defined.

(** * Further properties of the modelled code *)

(** ** Chat history store: sorting is stable *)

(** Sorting a list that is already sorted gives it back. *)
Lemma sortByUpdated_sorted_id (l : list SavedChat) :
  Sorted descByUpdated l -> sortByUpdated l = l.
Proof.
  induction 1 as [|x l Hs IH Hhd]; [reflexivity|].
  cbn [sortByUpdated fold_right]. fold (sortByUpdated l). rewrite IH.
  destruct Hhd as [|y l' Hxy]; [reflexivity|].
  cbn [insertByUpdated]. unfold descByUpdated in Hxy.
  replace (updatedAt x <? updatedAt y)%Z with false; [reflexivity|].
  symmetry. now apply Z.ltb_ge.
Qed.

Lemma sorted_all_older (x : SavedChat) (l : list SavedChat) :
  Sorted descByUpdated (x :: l) ->
  Forall (fun c => (updatedAt c <= updatedAt x)%Z) l.
Proof.
  intros H. apply Sorted_StronglySorted in H; [|exact descByUpdated_trans].
  apply StronglySorted_inv in H. exact (proj2 H).
Qed.

Lemma filter_insertByUpdated (p : SavedChat -> bool) (x : SavedChat)
    (l : list SavedChat) :
  Sorted descByUpdated l ->
  filter p (insertByUpdated x l)
  = if p x then insertByUpdated x (filter p l) else filter p l.
Proof.
  induction l as [|y l IH]; intros Hs.
  - cbn. now destruct (p x).
  - assert (Hs' : Sorted descByUpdated l) by now inversion Hs.
    cbn [insertByUpdated]. destruct (updatedAt x <? updatedAt y)%Z eqn:Hxy.
    + cbn [filter]. rewrite (IH Hs').
      destruct (p y), (p x); try reflexivity.
      cbn [insertByUpdated]. now rewrite Hxy.
    + cbn [filter]. destruct (p x); [|reflexivity].
      rewrite insertByUpdated_front; [reflexivity|].
      apply Z.ltb_ge in Hxy.
      assert (Hall : Forall (fun c => (updatedAt c <= updatedAt x)%Z) (y :: l)).
      { constructor; [assumption|].
        eapply Forall_impl; [|exact (sorted_all_older y l Hs)].
        intros c Hc. cbn in Hc. lia. }
      rewrite Forall_forall in *. intros c Hc.
      apply Hall. change (In c (filter p (y :: l))) in Hc.
      apply filter_In in Hc. tauto.
Qed.

(** The sort keeps the relative order of the records it does not have to
    move: a selection of the sorted list is the sorted selection. *)
Lemma filter_sortByUpdated (p : SavedChat -> bool) (l : list SavedChat) :
  filter p (sortByUpdated l) = sortByUpdated (filter p l).
Proof.
  induction l as [|x l IH]; [reflexivity|].
  cbn [sortByUpdated fold_right]. fold (sortByUpdated l).
  rewrite filter_insertByUpdated by apply sortByUpdated_sorted.
  cbn [filter]. destruct (p x); rewrite IH; reflexivity.
Qed.

(** ** Chat history store: delete and rename *)

Lemma filter_notThread_absent (tid : string) (l : list SavedChat) :
  ~ In tid (map threadId l) -> filter (notThread tid) l = l.
Proof.
  induction l as [|c l IH]; cbn [map filter]; intros H; [reflexivity|].
  unfold notThread at 1, isThread.
  destruct (String.eqb_spec (threadId c) tid) as [E|_].
  - exfalso. apply H. now left.
  - cbn [negb]. f_equal. apply IH. intros Hin. apply H. now right.
Qed.

Lemma deleteChatList_spec (tid : string) (l : list SavedChat) :
  deleteChatList tid l = filter (notThread tid) l.
Proof.
  reflexivity.
Qed.

Lemma filter_notThread_ids (tid : string) (l : list SavedChat) :
  ~ In tid (map threadId (filter (notThread tid) l)).
Proof.
  intros Hin. apply in_map_iff in Hin. destruct Hin as (c & Hc & Hin).
  apply filter_In in Hin. destruct Hin as [_ Hp].
  unfold notThread, isThread in Hp. rewrite Hc, String.eqb_refl in Hp.
  discriminate.
Qed.

(** X1.  [deleteChat] on a store within the cap removes the records of the
    thread and nothing else: the other records stay, in their order; a
    thread that is not stored leaves the view as it was; and when the
    storage accepts the write, the durable record is the new view. *)
Theorem deleteChat_removes_only_that_thread :
  forall (env : CallEnv) (T : string) (b : Browser),
    (List.length (chats b) <= MAX_CHATS)%nat ->
    chats (deleteChat env T b) = filter (notThread T) (chats b)
    /\ ~ In T (map threadId (chats (deleteChat env T b)))
    /\ (forall c, In c (chats b) -> threadId c <> T ->
          In c (chats (deleteChat env T b)))
    /\ (~ In T (map threadId (chats b)) -> chats (deleteChat env T b) = chats b)
    /\ (storageAccepts env = true ->
          ls_chat_history (storage (deleteChat env T b))
          = Some (chats (deleteChat env T b))).
Proof.
  intros env T b Hlen.
  assert (Hc : chats (deleteChat env T b) = filter (notThread T) (chats b)).
  { unfold deleteChat, commitChats. cbn [chats]. rewrite deleteChatList_spec.
    apply firstn_all2.
    pose proof (filter_length_le (notThread T) (chats b)). lia. }
  rewrite Hc. repeat split.
  - apply filter_notThread_ids.
  - intros c Hin Hne. apply filter_In. split; [assumption|].
    unfold notThread, isThread.
    destruct (String.eqb_spec (threadId c) T); [contradiction | reflexivity].
  - apply filter_notThread_absent.
  - intros Hacc. rewrite <- Hc.
    unfold deleteChat, commitChats. rewrite Hacc. reflexivity.
Qed.

Lemma deleteChat_removes_only_that_thread_witness :
  chats (deleteChat (envAt 30) "thread-1" aliceRenamed) = []
  /\ chats (deleteChat (envAt 30) "thread-9" aliceRenamed) = chats aliceRenamed.
Proof.
  split.
  - rewrite (proj1 (deleteChat_removes_only_that_thread (envAt 30) "thread-1"
                      aliceRenamed ltac:(vm_compute; lia))).
    reflexivity.
  - apply (deleteChat_removes_only_that_thread (envAt 30) "thread-9"
             aliceRenamed ltac:(vm_compute; lia)).
    vm_compute. intros [H | []]. discriminate H.
Defined.

Lemma map_renamed_absent (env : CallEnv) (tid ttl : string) (l : list SavedChat) :
  ~ In tid (map threadId l) ->
  map (fun chat => if String.eqb (threadId chat) tid
                   then mkChat (threadId chat) ttl (createdAt chat) (now env)
                          (firstMessage chat)
                   else chat) l = l.
Proof.
  induction l as [|c l IH]; cbn [map]; intros H; [reflexivity|].
  destruct (String.eqb_spec (threadId c) tid) as [E|_].
  - exfalso. apply H. now left.
  - f_equal. apply IH. intros Hin. apply H. now right.
Qed.

(** X2.  [updateChatTitle] for a thread that is not stored leaves the view
    of a sorted store within the cap exactly as it was. *)
Theorem updateChatTitle_absent_thread_keeps_view :
  forall (env : CallEnv) (T ttl : string) (b : Browser),
    Sorted descByUpdated (chats b) ->
    (List.length (chats b) <= MAX_CHATS)%nat ->
    ~ In T (map threadId (chats b)) ->
    chats (updateChatTitle env T ttl b) = chats b.
Proof.
  intros env T ttl b Hs Hlen Habs.
  unfold updateChatTitle, commitChats, updateChatTitleSorted. cbn [chats].
  rewrite (map_renamed_absent env T ttl (chats b) Habs).
  rewrite (sortByUpdated_sorted_id _ Hs). now apply firstn_all2.
Qed.

Lemma updateChatTitle_absent_thread_keeps_view_witness :
  chats (updateChatTitle (envAt 30) "thread-9" "x" aliceRenamed)
  = chats aliceRenamed.
Proof.
  apply (updateChatTitle_absent_thread_keeps_view (envAt 30) "thread-9" "x"
           aliceRenamed).
  - vm_compute. repeat constructor.
  - vm_compute. lia.
  - vm_compute. intros [H | []]. discriminate H.
Defined.

Lemma updateChatTitleSorted_spec (env : CallEnv) (tid ttl : string)
    (l : list SavedChat) :
  updateChatTitleSorted env tid ttl l
  = sortByUpdated
      (map (fun c => if isThread tid c then renamed env ttl c else c) l).
Proof.
  reflexivity.
Qed.

Lemma filter_isThread_renamed (env : CallEnv) (tid ttl : string)
    (l : list SavedChat) :
  filter (isThread tid)
    (map (fun c => if isThread tid c then renamed env ttl c else c) l)
  = map (renamed env ttl) (filter (isThread tid) l).
Proof.
  induction l as [|c l IH]; [reflexivity|].
  cbn [map filter]. destruct (isThread tid c) eqn:Hc.
  - unfold isThread at 1. cbn [renamed threadId].
    fold (isThread tid c). rewrite Hc. cbn [map]. now rewrite IH.
  - rewrite Hc. exact IH.
Qed.

Lemma filter_notThread_renamed (env : CallEnv) (tid ttl : string)
    (l : list SavedChat) :
  filter (notThread tid)
    (map (fun c => if isThread tid c then renamed env ttl c else c) l)
  = filter (notThread tid) l.
Proof.
  induction l as [|c l IH]; [reflexivity|].
  cbn [map filter]. destruct (isThread tid c) eqn:Hc.
  - assert (H1 : notThread tid (renamed env ttl c) = false).
    { unfold notThread, isThread. cbn [renamed threadId].
      fold (isThread tid c). now rewrite Hc. }
    assert (H2 : notThread tid c = false) by (unfold notThread; now rewrite Hc).
    rewrite H1, H2. exact IH.
  - assert (H2 : notThread tid c = true) by (unfold notThread; now rewrite Hc).
    rewrite H2, IH. reflexivity.
Qed.

(** The view after [updateChatTitle] on a store within the cap. *)
Lemma updateChatTitle_view (env : CallEnv) (T ttl : string) (b : Browser) :
  (List.length (chats b) <= MAX_CHATS)%nat ->
  chats (updateChatTitle env T ttl b)
  = sortByUpdated
      (map (fun c => if isThread T c then renamed env ttl c else c) (chats b)).
Proof.
  intros Hlen. unfold updateChatTitle, commitChats. cbn [chats].
  rewrite updateChatTitleSorted_spec. apply firstn_all2.
  now rewrite sortByUpdated_length, length_map.
Qed.

Lemma updateChatTitle_stored_thread (env : CallEnv) (T ttl : string)
    (b : Browser) (old : SavedChat) :
  Sorted descByUpdated (chats b) ->
  (List.length (chats b) <= MAX_CHATS)%nat ->
  filter (isThread T) (chats b) = [old] ->
  filter (isThread T) (chats (updateChatTitle env T ttl b))
  = [renamed env ttl old]
  /\ filter (notThread T) (chats (updateChatTitle env T ttl b))
     = filter (notThread T) (chats b)
  /\ List.length (chats (updateChatTitle env T ttl b)) = List.length (chats b).
Proof.
  intros Hs Hlen Hold. rewrite (updateChatTitle_view env T ttl b Hlen).
  repeat split.
  - rewrite filter_sortByUpdated, filter_isThread_renamed, Hold. reflexivity.
  - rewrite filter_sortByUpdated, filter_notThread_renamed.
    apply sortByUpdated_sorted_id. now apply sorted_filter.
  - now rewrite sortByUpdated_length, length_map.
Qed.

(** X3.  [updateChatTitle] for a stored thread, on a sorted store within
    the cap: the record of the thread gets the title and the clock reading
    as [updatedAt] and keeps [createdAt] and its preview; the records of the
    other threads stay as they were, in their order. *)
Theorem updateChatTitle_renames_only_that_thread :
  forall (env : CallEnv) (T ttl : string) (b : Browser) (old : SavedChat),
    Sorted descByUpdated (chats b) ->
    (List.length (chats b) <= MAX_CHATS)%nat ->
    filter (isThread T) (chats b) = [old] ->
    filter (isThread T) (chats (updateChatTitle env T ttl b))
    = [mkChat (threadId old) ttl (createdAt old) (now env) (firstMessage old)]
    /\ filter (notThread T) (chats (updateChatTitle env T ttl b))
       = filter (notThread T) (chats b)
    /\ List.length (chats (updateChatTitle env T ttl b)) = List.length (chats b).
Proof.
  intros env T ttl b old Hs Hlen Hold.
  exact (updateChatTitle_stored_thread env T ttl b old Hs Hlen Hold).
Qed.

Lemma updateChatTitle_renames_only_that_thread_witness :
  filter (isThread "thread-2")
    (chats (updateChatTitle (envAt 30) "thread-2" "Budget"
              (saveChat (envAt 25) "thread-2" None None aliceRenamed)))
  = [mkChat "thread-2" "Budget" 25 30 None].
Proof.
  apply (updateChatTitle_renames_only_that_thread (envAt 30) "thread-2" "Budget"
           (saveChat (envAt 25) "thread-2" None None aliceRenamed)
           (mkChat "thread-2" (placeholderTitle "01.11.2026") 25 25 None)).
  - vm_compute. repeat constructor; discriminate.
  - vm_compute. lia.
  - reflexivity.
Defined.

(** X4.  Writing and reading back.  When the storage accepts the write of
    a mutation, the durable record is the new view, and the effect that
    loads the store for a logged-in user gives that view back unchanged.
    When the storage refuses the write, the view is the same as if it had
    been accepted and the durable record is the previous one. *)
Theorem mutation_persists_and_reloads :
  forall (env : CallEnv) (m : Mutation) (b : Browser) (u : User),
    Sorted descByUpdated (chats b) ->
    user (auth b) = Some u ->
    (storageAccepts env = true ->
       ls_chat_history (storage (applyMutation (env, m) b))
       = Some (chats (applyMutation (env, m) b))
       /\ historyEffect (applyMutation (env, m) b) = applyMutation (env, m) b)
    /\ (storageAccepts env = false ->
          storage (applyMutation (env, m) b) = storage b
          /\ chats (applyMutation (env, m) b)
             = chats (applyMutation
                        (mkEnv (now env) (today env) true, m) b)).
Proof.
  intros env m b u Hs Hu. split; intros Hacc.
  - unfold applyMutation, commitChats. cbn [fst snd]. rewrite Hacc.
    split; [reflexivity|].
    unfold historyEffect. cbn [auth storage chats ls_chat_history]. rewrite Hu.
    rewrite sortByUpdated_sorted_id; [reflexivity|].
    apply sorted_firstn. now apply mutationList_sorted.
  - unfold applyMutation, commitChats. cbn [fst snd]. rewrite Hacc.
    split; [reflexivity|]. cbn [chats].
    destruct m; reflexivity.
Qed.

Lemma mutation_persists_and_reloads_witness :
  ls_chat_history (storage (applyMutation
     (envAt 30, UpdateChatTitle "thread-1" "Oslo") aliceRenamed))
  = Some (chats (applyMutation
     (envAt 30, UpdateChatTitle "thread-1" "Oslo") aliceRenamed))
  /\ historyEffect (applyMutation
       (envAt 30, UpdateChatTitle "thread-1" "Oslo") aliceRenamed)
     = applyMutation (envAt 30, UpdateChatTitle "thread-1" "Oslo") aliceRenamed.
Proof.
  apply (proj1 (mutation_persists_and_reloads (envAt 30)
           (UpdateChatTitle "thread-1" "Oslo") aliceRenamed alice
           ltac:(vm_compute; repeat constructor) eq_refl)).
  reflexivity.
Defined.

(** X5.  A title given by [updateChatTitle] does not survive the next
    [saveChat(threadId)] without preview and title (the call [Chat] makes
    when a thread route is opened): the record then carries the dated
    placeholder; [createdAt] and the preview are kept. *)
Theorem saveChat_without_preview_resets_title :
  forall (env1 env2 : CallEnv) (T ttl : string) (b : Browser) (old : SavedChat),
    Sorted descByUpdated (chats b) ->
    (List.length (chats b) <= MAX_CHATS)%nat ->
    filter (isThread T) (chats b) = [old] ->
    filter (isThread T)
      (chats (saveChat env2 T None None (updateChatTitle env1 T ttl b)))
    = [mkChat (threadId old) (placeholderTitle (today env2)) (createdAt old)
         (now env2) (firstMessage old)].
Proof.
  intros env1 env2 T ttl b old Hs Hlen Hold.
  destruct (updateChatTitle_stored_thread env1 T ttl b old Hs Hlen Hold)
    as (Hren & _ & Hl).
  rewrite (saveChat_existing_thread env2 T None None _ _ Hren)
    by (rewrite Hl; exact Hlen).
  reflexivity.
Qed.

Lemma saveChat_without_preview_resets_title_witness :
  filter (isThread "thread-1")
    (chats (saveChat (envAt 40) "thread-1" None None
              (updateChatTitle (envAt 20) "thread-1" "Trip to Oslo"
                 (saveChat (envAt 10) "thread-1"
                    (Some "<task>book a flight</task>") None aliceBrowser))))
  = [mkChat "thread-1" (placeholderTitle "01.11.2026") 10 40
       (Some "<task>book a flight</task>")].
Proof.
  apply (saveChat_without_preview_resets_title (envAt 20) (envAt 40)
           "thread-1" "Trip to Oslo"
           (saveChat (envAt 10) "thread-1"
              (Some "<task>book a flight</task>") None aliceBrowser)
           (mkChat "thread-1" "book a flight" 10 10
              (Some "<task>book a flight</task>"))).
  - vm_compute. repeat constructor.
  - vm_compute. lia.
  - reflexivity.
Defined.

(** ** Chat history store: the thread just written comes first *)

Lemma sortByUpdated_head_newest (x : SavedChat) (l : list SavedChat) :
  In x l ->
  (forall y, In y l -> y = x \/ (updatedAt y < updatedAt x)%Z) ->
  hd_error (sortByUpdated l) = Some x.
Proof.
  intros Hx Hnew.
  pose proof (sortByUpdated_perm l) as Hp.
  pose proof (sortByUpdated_sorted l) as Hs.
  destruct (sortByUpdated l) as [|h t] eqn:E.
  - apply Permutation_sym, Permutation_nil in Hp. subst l. contradiction.
  - cbn. f_equal.
    assert (Hh : In h l) by (apply (Permutation_in h (Permutation_sym Hp)); now left).
    destruct (Hnew h Hh) as [|Hlt]; [assumption|].
    assert (Hxs : In x (h :: t)) by now apply (Permutation_in x Hp).
    destruct Hxs as [|Hxt]; [assumption|].
    pose proof (sorted_all_older h t Hs) as Hall.
    rewrite Forall_forall in Hall. specialize (Hall x Hxt). cbn in Hall. lia.
Qed.

Lemma in_setAt_found {A} (p : A -> bool) (l : list A) (i : nat) (a x y : A) :
  findIndex p l = Some i -> filter p l = [a] ->
  In x (setAt i x l)
  /\ (In y (setAt i x l) -> y = x \/ (In y l /\ p y = false)).
Proof.
  revert i. induction l as [|z l IH]; cbn [findIndex filter]; intros i Hf Ha;
    [discriminate|].
  destruct (p z) eqn:Hz.
  - injection Hf as <-. injection Ha as _ Ha. cbn [setAt]. split; [now left|].
    intros [<- | Hy]; [now left|]. right. split; [now right|].
    destruct (p y) eqn:Hy'; [|reflexivity].
    assert (Hin : In y (filter p l)) by (apply filter_In; auto).
    rewrite Ha in Hin. contradiction.
  - destruct (findIndex p l) as [j|]; [|discriminate].
    injection Hf as <-. cbn [setAt]. destruct (IH j eq_refl Ha) as [H1 H2].
    split; [now right|].
    intros [<- | Hy]; [right; split; [now left | assumption]|].
    destruct (H2 Hy) as [|[Hin Hp]]; [now left|]. right. split; [now right | assumption].
Qed.

Lemma hd_error_firstn {A} (n : nat) (l : list A) :
  hd_error (firstn (S n) l) = hd_error l.
Proof.
  destruct l; reflexivity.
Qed.

(** X6.  After [saveChat] the thread written is the first of the view:
    for a new thread when no stored record is more recent than the clock
    reading of the call, and for a stored thread when every other record is
    older than it. *)
Theorem saveChat_puts_thread_first :
  forall (env : CallEnv) (T : string) (fm ct : option string) (b : Browser),
    (~ In T (map threadId (chats b)) ->
     Forall (fun c => (updatedAt c <= now env)%Z) (chats b) ->
     hd_error (chats (saveChat env T fm ct b))
     = Some (mkChat T (saveChatTitle (today env) fm ct) (now env) (now env) fm))
    /\ (forall old,
          filter (isThread T) (chats b) = [old] ->
          (forall c, In c (chats b) -> isThread T c = false ->
                     (updatedAt c < now env)%Z) ->
          hd_error (chats (saveChat env T fm ct b))
          = Some (mkChat (threadId old) (saveChatTitle (today env) fm ct)
                    (createdAt old) (now env)
                    (if JS.truthy_opt fm then fm else firstMessage old))).
Proof.
  intros env T fm ct b. split.
  - intros Hnew Hall.
    unfold saveChat, commitChats, saveChatSorted. cbn [chats].
    fold (isThread T). rewrite (findIndex_isThread_absent T (chats b) Hnew).
    unfold MAX_CHATS. rewrite hd_error_firstn.
    cbn [sortByUpdated fold_right]. fold (sortByUpdated (chats b)).
    rewrite insertByUpdated_front; [reflexivity|].
    eapply Permutation_Forall; [apply sortByUpdated_perm | exact Hall].
  - intros old Hold Holder.
    destruct (findIndex_of_filter _ _ _ Hold) as (i & Hi & Hn).
    unfold saveChat, commitChats, saveChatSorted. cbn [chats].
    fold (isThread T). rewrite Hi, Hn.
    unfold MAX_CHATS. rewrite hd_error_firstn.
    set (x := mkChat (threadId old) _ _ _ _).
    apply sortByUpdated_head_newest.
    + apply (in_setAt_found (isThread T) (chats b) i old x x Hi Hold).
    + intros y Hy.
      destruct (proj2 (in_setAt_found (isThread T) (chats b) i old x y Hi Hold) Hy)
        as [|[Hin Hp]]; [now left|].
      right. exact (Holder y Hin Hp).
Qed.

Lemma saveChat_puts_thread_first_witness :
  hd_error (chats (saveChat (envAt 30) "thread-2" (Some "hello") None aliceRenamed))
  = Some (mkChat "thread-2" "hello" 30 30 (Some "hello")).
Proof.
  apply (proj1 (saveChat_puts_thread_first (envAt 30) "thread-2" (Some "hello")
                  None aliceRenamed)).
  - vm_compute. intros [H | []]. discriminate H.
  - vm_compute. repeat constructor. discriminate.
Defined.

(** ** Repetition breaker: what holds in every reachable state *)

Lemma initialBreaker_ok : breakerOk initialBreaker.
Proof.
  repeat split; cbn; try lia; discriminate.
Qed.

Lemma resetEffect_ok (v : StreamView) (st : BreakerState) :
  breakerOk st -> breakerOk (resetEffect v st).
Proof.
  intros H. unfold resetEffect. case_if; [apply initialBreaker_ok | exact H].
Qed.

Lemma recordErrorEffect_ok (now : Z) (v : StreamView) (st : BreakerState) :
  breakerOk st -> breakerOk (recordErrorEffect now v st).
Proof.
  intros (Hlen & Hoff & Hon).
  destruct (negb (JS.truthy (errorMessage v)) || isLoading v) eqn:Hskip.
  { unfold recordErrorEffect. rewrite Hskip. repeat split; assumption. }
  apply orb_false_iff in Hskip. destruct Hskip as [Hm Hl].
  apply negb_false_iff in Hm.
  pose proof (recordErrorEffect_history now v st Hm Hl) as Hh.
  assert (Hb : (List.length (errorHistory (recordErrorEffect now v st)) <= 5)%nat)
    by now apply recordErrorEffect_bounded.
  unfold recordErrorEffect in *. rewrite Hm, Hl in *. cbn [negb orb] in *.
  set (history := sliceLast 5 (errorHistory st ++ [mkErrorRecord (errorMessage v) now])) in *.
  destruct (3 <=? List.length history)%nat eqn:H3.
  - destruct (forallb _ (sliceLast 3 history) && negb (debugMode v)) eqn:Htrip;
      cbn [errorHistory repeatedError shouldStop] in *.
    + split; [exact Hb|]. split; [discriminate|]. intros _.
      apply andb_true_iff in Htrip. destruct Htrip as [Hall _].
      exists (errorMessage v). repeat split.
      * now apply truthy_true_iff.
      * now apply Nat.leb_le.
      * rewrite forallb_forall in Hall. apply Forall_forall. intros r Hr.
        now apply String.eqb_eq, Hall.
    + split; [exact Hb|]. split; [reflexivity | discriminate].
  - cbn [errorHistory repeatedError shouldStop] in *.
    apply Nat.leb_gt in H3.
    assert (Hshort : (List.length (errorHistory st) < 3)%nat).
    { unfold history in H3. rewrite sliceLast_length, length_app in H3.
      cbn [List.length] in H3. lia. }
    split; [exact Hb|]. split; [exact Hoff|].
    intros Hs. destruct (Hon Hs) as (t & _ & _ & Hge & _). lia.
Qed.

Lemma runBreaker_ok (es : list BreakerEvent) :
  breakerOk (runBreaker es initialBreaker).
Proof.
  unfold runBreaker. generalize initialBreaker_ok.
  generalize initialBreaker as st.
  induction es as [|e es IH]; intros st Hst; [exact Hst|].
  cbn [fold_left]. apply IH.
  destruct e as [now v | v]; cbn [breakerStep].
  - now apply recordErrorEffect_ok.
  - now apply resetEffect_ok.
Qed.

(** X7.  In every state reached from the initial one by runs of the two
    effects of [ChatError], the ring holds at most five records, and the
    breaker is tripped exactly when a repeated text is kept; the ring then
    holds at least three records and its last three carry that text. *)
Theorem breaker_invariant :
  forall (es : list BreakerEvent),
    let st := runBreaker es initialBreaker in
    (List.length (errorHistory st) <= 5)%nat
    /\ (shouldStop st = false -> repeatedError st = None)
    /\ (shouldStop st = true ->
        exists t, repeatedError st = Some t /\ t <> ""
                  /\ (3 <= List.length (errorHistory st))%nat
                  /\ Forall (fun r => error r = t)
                       (sliceLast 3 (errorHistory st))).
Proof.
  intros es. exact (runBreaker_ok es).
Qed.

(** X8.  The retry button is shown exactly when there is an error, the
    stream is not loading and debug mode is on; and nothing at all is shown
    exactly when there is no error or the stream is loading. *)
Theorem retry_button_only_in_debug_mode :
  forall (v : StreamView) (st : BreakerState),
    (hasRetry (renderChatError v st) = true
     <-> error_truthy v = true /\ isLoading v = false /\ debugMode v = true)
    /\ (renderChatError v st = NoView
        <-> error_truthy v = false \/ isLoading v = true).
Proof.
  intros v st. unfold renderChatError.
  destruct (error_truthy v), (isLoading v), (debugMode v),
    (shouldStop st), (JS.truthy_opt (repeatedError st)); cbn;
    (split; split; intros H; try discriminate; try tauto;
     try (destruct H as (? & ? & ?); discriminate);
     try (destruct H; discriminate)).
Qed.

(** X9.  With debug mode on, recording an error in a reachable state
    never leaves the breaker tripped, however often the text repeats, and
    the view is the one with the retry button. *)
Theorem debug_mode_never_trips :
  forall (es : list BreakerEvent) (now : Z) (v : StreamView),
    JS.truthy (errorMessage v) = true ->
    isLoading v = false ->
    debugMode v = true ->
    let st' := recordErrorEffect now v (runBreaker es initialBreaker) in
    shouldStop st' = false
    /\ repeatedError st' = None
    /\ renderChatError v st' = RetryView retryLabel.
Proof.
  intros es now v Hm Hl Hd st'.
  pose proof (runBreaker_ok es) as Hinv.
  set (st := runBreaker es initialBreaker) in *.
  destruct Hinv as (Hlen & Hoff & Hon).
  assert (Hs : shouldStop st' = false).
  { unfold st', recordErrorEffect. rewrite Hm, Hl, Hd. cbn [negb orb].
    rewrite andb_false_r.
    destruct (3 <=? _)%nat eqn:H3; [reflexivity|]. cbn [shouldStop].
    destruct (shouldStop st) eqn:Hst; [|reflexivity].
    destruct (Hon eq_refl) as (t & _ & _ & Hge & _).
    apply Nat.leb_gt in H3. rewrite sliceLast_length, length_app in H3.
    cbn [List.length] in H3. lia. }
  assert (Hok : breakerOk st').
  { apply recordErrorEffect_ok. repeat split; assumption. }
  repeat split; [exact Hs | exact (proj1 (proj2 Hok) Hs) |].
  unfold renderChatError.
  rewrite (errorMessage_truthy v Hm), Hl, Hd, Hs. reflexivity.
Qed.

Lemma debug_mode_never_trips_witness :
  shouldStop (recordErrorEffect 3 timeoutDebugView
                (runBreaker [RecordRun 1 timeoutDebugView;
                             RecordRun 2 timeoutDebugView] initialBreaker))
  = false.
Proof.
  apply (debug_mode_never_trips
           [RecordRun 1 timeoutDebugView; RecordRun 2 timeoutDebugView]
           3 timeoutDebugView); reflexivity.
Defined.

(** ** Identity: what is handed to the stream and to a retry *)

Lemma trimStart_head (s : string) :
  match JS.trimStart s with
  | EmptyString => True
  | String c _ => JS.isWhiteSpace c = false
  end.
Proof.
  induction s as [|c r IH]; cbn [JS.trimStart]; [exact I|].
  destruct (JS.isWhiteSpace c) eqn:Hc; [exact IH | exact Hc].
Qed.

Lemma trimEnd_idempotent (s : string) :
  JS.trimEnd (JS.trimEnd s) = JS.trimEnd s.
Proof.
  induction s as [|c r IH]; [reflexivity|].
  cbn [JS.trimEnd]. destruct (JS.trimEnd r) as [|c' r'] eqn:Er.
  - destruct (JS.isWhiteSpace c) eqn:Hc; [reflexivity|].
    cbn [JS.trimEnd]. now rewrite Hc.
  - cbn [JS.trimEnd] in *. rewrite IH. reflexivity.
Qed.

Lemma trimEnd_keeps_head (c : ascii) (r : string) :
  JS.isWhiteSpace c = false ->
  exists r', JS.trimEnd (String c r) = String c r'.
Proof.
  intros Hc. cbn [JS.trimEnd]. destruct (JS.trimEnd r) as [|c' r'].
  - rewrite Hc. now exists "".
  - now exists (String c' r').
Qed.

(** [trim] applied twice is [trim]. *)
Lemma trim_idempotent (s : string) : JS.trim (JS.trim s) = JS.trim s.
Proof.
  unfold JS.trim. pose proof (trimStart_head s) as Hh.
  destruct (JS.trimStart s) as [|c r]; [reflexivity|].
  destruct (trimEnd_keeps_head c r Hh) as [r' Hr]. rewrite Hr.
  cbn [JS.trimStart]. rewrite Hh, <- Hr. apply trimEnd_idempotent.
Qed.

(** The first code unit of a trimmed string is not white space. *)
Lemma trim_head (s : string) :
  match JS.trim s with
  | EmptyString => True
  | String c _ => JS.isWhiteSpace c = false
  end.
Proof.
  unfold JS.trim. pose proof (trimStart_head s) as Hh.
  destruct (JS.trimStart s) as [|c r]; [exact I|].
  destruct (trimEnd_keeps_head c r Hh) as [r' Hr]. now rewrite Hr.
Qed.

(** X10.  The identifier in the context [useUserConfig] returns is already
    trimmed: trimming it again changes nothing, it is not empty and it does
    not start with white space; so resolving the identity of a user whose
    identifier is that output gives the same context. *)
Theorem useUserConfig_identifier_is_trimmed :
  forall (a : AuthState) (c : UserConfig),
    useUserConfig a = Some c ->
    JS.trim (cfg_user_id c) = cfg_user_id c
    /\ cfg_user_id c <> ""
    /\ (exists ch rest, cfg_user_id c = String ch rest
                        /\ JS.isWhiteSpace ch = false)
    /\ (forall u', user_id u' = cfg_user_id c ->
          useUserConfig (mkAuth (Some u') (token a) (loading a)) = Some c).
Proof.
  intros a c H.
  destruct (useUserConfig_some a c H) as (Hl & Ha & u & Hu & Hc & Hne & Han).
  assert (Hidem : JS.trim (cfg_user_id c) = cfg_user_id c)
    by (rewrite Hc; apply trim_idempotent).
  repeat split.
  - exact Hidem.
  - now rewrite Hc.
  - pose proof (trim_head (user_id u)) as Hh. rewrite Hc.
    destruct (JS.trim (user_id u)) as [|ch rest]; [now contradiction Hne|].
    now exists ch, rest.
  - intros u' Hu'.
    assert (Ha' : isAuthenticated (mkAuth (Some u') (token a) (loading a)) = true).
    { unfold isAuthenticated in *. cbn [user token]. rewrite Hu in Ha. exact Ha. }
    rewrite (useUserConfig_ready (mkAuth (Some u') (token a) (loading a)) u'
               Hl Ha' eq_refl);
      rewrite Hu', Hidem; try (rewrite Hc; assumption).
    now destruct c.
Qed.

Lemma useUserConfig_identifier_is_trimmed_witness :
  JS.trim "Bob" = "Bob" /\ "Bob" <> "".
Proof.
  destruct (useUserConfig_identifier_is_trimmed bobSession (mkConfig "Bob")
              eq_refl) as (H1 & H2 & _).
  exact (conj H1 H2).
Defined.

(** X11.  [handleRetry] submits only for an authenticated user, and never
    with an identifier that is empty or that trims to "anonymous" in any
    casing; what it submits is the identity context when that is ready, and
    the raw identifier of the user otherwise. *)
Theorem handleRetry_never_submits_anonymous :
  forall (a : AuthState) (c : UserConfig),
    handleRetry a = RetrySubmitted c ->
    isAuthenticated a = true
    /\ cfg_user_id c <> ""
    /\ JS.toLowerCase (JS.trim (cfg_user_id c)) <> "anonymous"
    /\ (useUserConfig a = Some c
        \/ (useUserConfig a = None /\ user_id_of a = Some (cfg_user_id c))).
Proof.
  intros a c H. unfold handleRetry, useUserId in H.
  destruct (isAuthenticated a) eqn:Ha; cbn [negb orb] in H; [|discriminate H].
  destruct (user_id_of a) as [raw|] eqn:Hraw; cbn [JS.truthy_opt negb orb] in H;
    [|discriminate H].
  destruct (JS.truthy raw) eqn:Ht; cbn [negb orb] in H; [|discriminate H].
  rewrite Ht in H. cbn [negb] in H.
  set (cfg := match useUserConfig a with Some c0 => c0 | None => mkConfig raw end)
    in H.
  destruct (JS.truthy (cfg_user_id cfg)) eqn:Hc; cbn [negb orb] in H;
    [|discriminate H].
  destruct (String.eqb_spec (JS.toLowerCase (JS.trim (cfg_user_id cfg))) "anonymous")
    as [|Hne]; [discriminate H|].
  injection H as <-. repeat split; auto.
  - now apply truthy_true_iff.
  - unfold cfg. destruct (useUserConfig a); [now left | right; now split].
Qed.

Lemma handleRetry_never_submits_anonymous_witness :
  isAuthenticated bobSession = true /\ "Bob" <> "".
Proof.
  destruct (handleRetry_never_submits_anonymous bobSession (mkConfig "Bob")
              eq_refl) as (H1 & H2 & _).
  exact (conj H1 H2).
Defined.

(** X12.  [threadConfig] of [Chat] is defined exactly when authentication
    has finished loading, the user is authenticated and the identifier is
    not empty; it is the identity context when that is ready and carries
    the raw identifier otherwise. *)
Theorem threadConfig_defined_iff :
  forall (a : AuthState) (c : UserConfig),
    threadConfig a = Some c
    <-> loading a = false /\ isAuthenticated a = true
        /\ exists u, user a = Some u /\ user_id u <> ""
                     /\ c = match useUserConfig a with
                            | Some ready => ready
                            | None => mkConfig (user_id u)
                            end.
Proof.
  intros a c. split.
  - intros H. destruct (useUserConfig a) as [ready|] eqn:Hcfg.
    + rewrite (threadConfig_ready a ready Hcfg) in H. injection H as <-.
      destruct (useUserConfig_some a ready Hcfg)
        as (Hl & Ha & u & Hu & _ & Hne & _).
      repeat split; auto. exists u. repeat split; auto.
      intros E. apply Hne. now rewrite E.
    + unfold threadConfig in H. rewrite Hcfg in H.
      destruct (loading a); [discriminate|].
      destruct (isAuthenticated a); cbn [negb orb] in H; [|discriminate].
      unfold user_id_of in H. destruct (user a) as [u|]; cbn in H; [|discriminate].
      destruct (JS.truthy (user_id u)) eqn:Ht; cbn in H; [|discriminate].
      injection H as <-. repeat split. exists u. repeat split.
      now apply truthy_true_iff.
  - intros (Hl & Ha & u & Hu & Hid & ->).
    destruct (useUserConfig a) as [ready|] eqn:Hcfg.
    + now apply threadConfig_ready.
    + now apply threadConfig_fallback.
Qed.

(** ** Session restore, login form and session creation *)

(** X13.  What the guarded route shows while a page loads.  Before the
    mount effect it shows the loader.  Without a saved token (absent or
    empty) or without a saved user the login screen follows.  With both,
    the loader stays until [verifyToken] ends: an accepted token gives the
    guarded views with the user the server returned, a rejected one gives
    the login screen and removes the saved session.  A saved user that
    cannot be parsed gives the login screen and removes the saved
    session. *)
Theorem session_restore_gate :
  forall (s : LocalStorage) (tok : string) (saved userData : User),
    ProtectedRoute (auth (pageLoad s)) = LoaderScreen
    /\ (JS.truthy_opt (ls_auth_token s) = false \/ ls_auth_user s = None ->
        forall parses,
          ProtectedRoute (auth (restoreSession parses (pageLoad s))) = LoginScreen
          /\ storage (restoreSession parses (pageLoad s)) = s)
    /\ (ls_auth_token s = Some tok -> tok <> "" -> ls_auth_user s = Some saved ->
        let pending := restoreSession true (pageLoad s) in
        ProtectedRoute (auth pending) = LoaderScreen
        /\ ProtectedRoute (auth (verifyTokenAccepted tok userData pending))
           = ChildrenScreen
        /\ user (auth (verifyTokenAccepted tok userData pending)) = Some userData
        /\ ProtectedRoute (auth (verifyTokenRejectedAndRender pending))
           = LoginScreen
        /\ ls_auth_token (storage (verifyTokenRejectedAndRender pending)) = None
        /\ ls_auth_user (storage (verifyTokenRejectedAndRender pending)) = None
        /\ ProtectedRoute (auth (restoreSession false (pageLoad s))) = LoginScreen
        /\ ls_auth_token (storage (restoreSession false (pageLoad s))) = None
        /\ ls_auth_user (storage (restoreSession false (pageLoad s))) = None).
Proof.
  intros s tok saved userData. split; [reflexivity|]. split.
  - intros Hmiss parses. unfold restoreSession, pageLoad.
    cbn [storage auth chats].
    destruct (ls_auth_token s) as [t|], (ls_auth_user s) as [u|];
      cbn [JS.truthy_opt] in Hmiss;
      try (split; reflexivity).
    destruct Hmiss as [Ht | Hu]; [|discriminate Hu].
    rewrite Ht. split; reflexivity.
  - intros Ht Hne Hu pending.
    assert (Htr : JS.truthy tok = true) by now apply truthy_true_iff.
    unfold pending, restoreSession, pageLoad, verifyTokenRejectedAndRender.
    cbn [storage auth chats]. rewrite Ht, Hu, Htr.
    cbn [auth user storage]. unfold ProtectedRoute, isAuthenticated.
    cbn [loading user token JS.truthy_opt ls_auth_token ls_auth_user
         verifyTokenAccepted verifyTokenRejected historyEffect auth storage].
    rewrite Htr. repeat split.
Qed.

Lemma session_restore_gate_witness :
  ProtectedRoute (auth (restoreSession true (pageLoad aliceStorage)))
  = LoaderScreen
  /\ ProtectedRoute
       (auth (verifyTokenAccepted "tok-a" alice
                (restoreSession true (pageLoad aliceStorage))))
     = ChildrenScreen.
Proof.
  destruct (proj2 (proj2 (session_restore_gate aliceStorage "tok-a" alice alice))
              eq_refl ltac:(discriminate) eq_refl) as (H1 & H2 & _).
  exact (conj H1 H2).
Defined.

(** X14.  A session written by an accepted [login] is found again when
    the page is loaded over the storage it left: the same user and token
    are restored and verification is pending.  This needs a token that is
    not empty: an empty token is stored but not restored. *)
Theorem login_then_reload_restores_session :
  forall (data : LoginData) (b : Browser),
    let after := snd (login (LoginAccepted data) b) in
    let reloaded := restoreSession true (pageLoad (storage after)) in
    (ld_token data <> "" ->
       user (auth reloaded) = user (auth after)
       /\ token (auth reloaded) = token (auth after)
       /\ isAuthenticated (auth reloaded) = true
       /\ loading (auth reloaded) = true)
    /\ (ld_token data = "" ->
          user (auth reloaded) = None
          /\ ProtectedRoute (auth reloaded) = LoginScreen).
Proof.
  intros data b after reloaded. split.
  - intros Hne. apply truthy_true_iff in Hne.
    unfold reloaded, after, restoreSession, pageLoad, login, isAuthenticated.
    cbn [snd storage auth ls_auth_token ls_auth_user user token loading chats].
    rewrite Hne. cbn [auth user token loading JS.truthy_opt]. rewrite Hne.
    repeat split.
  - intros He.
    unfold reloaded, after, restoreSession, pageLoad, login.
    cbn [snd storage auth ls_auth_token ls_auth_user user token loading chats].
    rewrite He. split; reflexivity.
Qed.

Lemma login_then_reload_restores_session_witness :
  user (auth (restoreSession true
                (pageLoad (storage (snd (login (LoginAccepted bobLogin)
                                           emptyBrowser))))))
  = Some (mkUser "bob" "Bob" None).
Proof.
  destruct (proj1 (login_then_reload_restores_session bobLogin emptyBrowser)
              ltac:(discriminate)) as (H & _).
  exact H.
Defined.

(** X15.  A login that is refused, or whose request fails, changes
    nothing: the authentication state, the storage and the view are as
    before, the form stops loading and shows an error text that is never
    empty.  For a refusal the text is the detail the server sent, or
    "Ошибка входа" when it sent none. *)
Theorem failed_login_changes_nothing :
  forall (b : Browser),
    (forall message,
       let r := loginSubmit (LoginUnreachable message) b in
       snd r = b
       /\ lf_loading (fst r) = false
       /\ exists text, lf_error (fst r) = Some text /\ text <> ""
                       /\ (message <> "" -> text = message))
    /\ (forall detail,
          let r := loginSubmit (LoginAnswered (LoginRefused detail)) b in
          snd r = b
          /\ lf_loading (fst r) = false
          /\ exists text, lf_error (fst r) = Some text /\ text <> ""
                          /\ text = (if JS.truthy_opt detail
                                     then orEmpty detail else loginFallback)).
Proof.
  intros b. split.
  - intros message. cbn. repeat split. destruct message as [|c r].
    + exists loginFormFallback. repeat split; [discriminate | tauto].
    + exists (String c r). repeat split. discriminate.
  - intros detail. unfold loginSubmit, loginAndRender, login. cbn [fst snd].
    repeat split.
    destruct detail as [[|c r]|]; cbn;
      eexists; repeat split; discriminate.
Qed.

(** X16.  The session-creation call that ends [login] cannot make a login
    fail or change its result: [login] completes as it would without the
    call, with the same authentication state, storage and view, whatever
    the registry answers; when the call fails the failure is written to the
    console as an error. *)
Theorem login_ignores_session_creation_failure :
  forall (data : LoginData) (net : FetchOutcome) (p : ChatPage),
    fst (loginWithSession (LoginAccepted data) net p) = Normal tt
    /\ browser (snd (loginWithSession (LoginAccepted data) net p))
       = snd (login (LoginAccepted data) (browser p))
    /\ (currentThreadId (snd (loginWithSession (LoginAccepted data) net p)),
        location (snd (loginWithSession (LoginAccepted data) net p)),
        debugMessages (snd (loginWithSession (LoginAccepted data) net p)))
       = (currentThreadId p, location p, debugMessages p)
    /\ (registrationFails net ->
        In diagnosticOfLogin
          (console (snd (loginWithSession (LoginAccepted data) net p)))).
Proof.
  intros data net p. unfold loginWithSession. cbn [login].
  destruct net as [reason | ok status body].
  - cbn. repeat split. intros _.
    repeat (apply in_or_app; right). now left.
  - destruct ok, body as [j|]; cbn; repeat split;
      try (intros H; discriminate H);
      intros _; rewrite !in_app_iff; cbn; tauto.
Qed.

(** ** Session registry client: how a call ends *)

(** X17.  [addThreadToRedisSession] returns the body of a 2xx answer;
    every other outcome throws.  For an answer that is not 2xx the message
    thrown is never empty: it is the detail of the body when that is not
    empty, the fallback text when the body has no detail, and
    "Неизвестная ошибка" when the body cannot be read.  A rejected request
    throws its own reason, and a 2xx answer whose body cannot be read
    throws as well.  Apart from the console the page is untouched,
    and every failure is written to the console as an error. *)
Theorem addThreadToRedisSession_outcomes :
  forall (tid tok : string) (p : ChatPage),
    (forall status data,
       fst (addThreadToRedisSession (FetchResponse true status (Some data))
              tid tok p) = Normal data)
    /\ (forall status body,
          exists msg,
            fst (addThreadToRedisSession (FetchResponse false status body)
                   tid tok p) = Thrown msg
            /\ msg <> ""
            /\ msg = match body with
                     | Some j => if JS.truthy_opt (rj_detail j)
                                 then orEmpty (rj_detail j) else linkFallback
                     | None => unknownError
                     end)
    /\ (forall reason,
          fst (addThreadToRedisSession (FetchRejected reason) tid tok p)
          = Thrown reason)
    /\ (forall status,
          exists msg,
            fst (addThreadToRedisSession (FetchResponse true status None)
                   tid tok p) = Thrown msg)
    /\ (forall net,
          visibleFlow (snd (addThreadToRedisSession net tid tok p))
          = visibleFlow p
          /\ debugMessages (snd (addThreadToRedisSession net tid tok p))
             = debugMessages p
          /\ match fst (addThreadToRedisSession net tid tok p) with
             | Normal _ => True
             | Thrown _ =>
                 exists l,
                   console (snd (addThreadToRedisSession net tid tok p))
                   = l ++ [(LogError,
                            "Ошибка при добавлении thread_id в сеанс Redis:")]
             end).
Proof.
  intros tid tok p. split; [|split; [|split; [|split]]].
  - intros status data. reflexivity.
  - intros status body. eexists. split; [reflexivity|].
    split; [|destruct body; reflexivity].
    destruct body as [[[[|c r]|] m u t]|]; cbn; discriminate.
  - intros reason. reflexivity.
  - intros status. eexists. reflexivity.
  - intros net. destruct net as [reason | ok status body].
    + repeat split. cbn. eexists. reflexivity.
    + destruct ok, body as [j|]; (repeat split); cbn;
        try exact I; eexists; reflexivity.
Qed.

(** ** The thinking indicator *)

Lemma lastOf_nonempty {A} (x : A) (l : list A) : lastOf (x :: l) <> None.
Proof.
  revert x. induction l as [|y l IH]; intros x; [discriminate|].
  cbn [lastOf]. apply IH.
Qed.

(** The three named agents all carry the marker the first test looks for. *)
Lemma isAgentTool_includes (toolName : string) :
  isAgentTool toolName = includes "_agent" toolName.
Proof.
  unfold isAgentTool.
  destruct (includes "_agent" toolName) eqn:Hi.
  - destruct toolName; [discriminate Hi | reflexivity].
  - cbn [orb].
    destruct (String.eqb_spec toolName "email_agent") as [->|_];
      [discriminate Hi|].
    destruct (String.eqb_spec toolName "tinkoff_agent") as [->|_];
      [discriminate Hi|].
    destruct (String.eqb_spec toolName "researcher_agent") as [->|_];
      [discriminate Hi|].
    apply andb_false_r.
Qed.

(** X18.  The thinking indicator is rendered exactly when debug mode is
    off, the stream is loading, there is at least one message and the last
    message is not from the agent; the tests on tool calls and on a last
    tool message do not change whether it is shown. *)
Theorem thinkingIndicator_shown_iff :
  forall (debug loadingNow : bool) (messages : list Message),
    thinkingIndicator debug loadingNow messages <> None
    <-> debug = false /\ loadingNow = true
        /\ exists m, lastOf messages = Some m /\ isAi (msg_type m) = false.
Proof.
  intros debug loadingNow messages. unfold thinkingIndicator.
  destruct debug.
  { split; [intros H; now contradiction H | intros (H & _); discriminate H]. }
  destruct messages as [|x l].
  { cbn. split; [intros H; now contradiction H|].
    intros (_ & _ & m & Hm & _). discriminate Hm. }
  destruct (lastOf (x :: l)) as [m|] eqn:Hlast;
    [|now destruct (lastOf_nonempty x l)].
  cbn [List.length Nat.leb Nat.ltb orb andb].
  destruct (isAi (msg_type m)) eqn:Hai, loadingNow; cbn.
  - split; [intros H; now contradiction H|].
    intros (_ & _ & m' & [= <-] & H). rewrite H in Hai. discriminate.
  - split; [intros H; now contradiction H|]. intros (_ & H & _). discriminate H.
  - rewrite !orb_true_r. cbn. split; [|intros _; discriminate].
    intros _. repeat split. now exists m.
  - split; [intros H; now contradiction H|]. intros (_ & H & _). discriminate H.
Qed.

(** X19.  The text beside the spinner, when it is shown: with pending tool
    calls on the last message it names a sub-agent exactly when the name of
    the first call contains "_agent", and a tool otherwise; without them it
    announces the handling of a tool result after a tool message, and plain
    processing after any other message. *)
Theorem thinkingIndicator_status_text :
  forall (loadingNow : bool) (messages : list Message) (m : Message)
         (text : string),
    lastOf messages = Some m ->
    thinkingIndicator false loadingNow messages = Some text ->
    (hasActiveToolCalls (Some m) = true ->
       text = if includes "_agent" (firstToolName (Some m))
              then statusSubAgent else statusTool)
    /\ (hasActiveToolCalls (Some m) = false -> isTool (msg_type m) = true ->
          text = statusToolResult)
    /\ (hasActiveToolCalls (Some m) = false -> isTool (msg_type m) = false ->
          text = statusProcessing).
Proof.
  intros loadingNow messages m text Hlast H.
  unfold thinkingIndicator in H. rewrite Hlast in H.
  destruct messages as [|x l]; [discriminate Hlast|].
  cbn [List.length Nat.leb Nat.ltb orb andb] in H.
  destruct (_ || negb _) in H; [discriminate H|].
  injection H as <-. rewrite isAgentTool_includes.
  cbn [hasActiveToolCalls firstToolName].
  repeat split; intros Htc; rewrite Htc; [reflexivity | |]; intros Ht;
    rewrite Ht; reflexivity.
Qed.

Lemma thinkingIndicator_status_text_witness :
  statusSubAgent
  = if includes "_agent" (firstToolName (Some (toolCalls "email_agent")))
    then statusSubAgent else statusTool.
Proof.
  apply (proj1 (thinkingIndicator_status_text true
                  [humanSays "hi"; toolCalls "email_agent"]
                  (toolCalls "email_agent") statusSubAgent eq_refl eq_refl)).
  reflexivity.
Defined.

(** ** The registration form *)

(** X20.  The registration request is sent exactly when the two passwords
    are equal, the password has at least three code units and the user
    name is not blank.  When it is not sent, nothing else happens either:
    no login, no navigation, the browser state is as before, and the error
    names the first rule broken, in that order.  When it is sent, it
    carries the trimmed user name, the password as typed, and the trimmed
    e-mail or [null] when that is blank. *)
Theorem registerSubmit_validation :
  forall (form : RegisterForm) (answer : RegisterAnswer)
         (attempt : LoginAttempt) (b : Browser),
    let valid :=
      String.eqb (rf_password form) (rf_confirmPassword form)
      && (3 <=? String.length (rf_password form))%nat
      && JS.truthy (JS.trim (rf_username form)) in
    let r := registerSubmit form answer attempt b in
    (valid = true ->
       rr_request (fst r)
       = Some (mkRegisterRequest (JS.trim (rf_username form))
                 (if JS.truthy (JS.trim (rf_email form))
                  then Some (JS.trim (rf_email form)) else None)
                 (rf_password form)))
    /\ (valid = false ->
          rr_request (fst r) = None /\ rr_loginCalled (fst r) = false
          /\ rr_navigate (fst r) = None /\ snd r = b
          /\ rr_error (fst r)
             = Some (if negb (String.eqb (rf_password form)
                                (rf_confirmPassword form))
                     then passwordsDiffer
                     else if (String.length (rf_password form) <? 3)%nat
                          then passwordTooShort
                          else usernameRequired)).
Proof.
  intros form answer attempt b valid r. unfold valid, r, registerSubmit.
  destruct (String.eqb (rf_password form) (rf_confirmPassword form));
    cbn [negb andb].
  2: { split; [discriminate | intros _; repeat split]. }
  rewrite Nat.leb_antisym.
  destruct (String.length (rf_password form) <? 3)%nat; cbn [negb andb].
  { split; [discriminate | intros _; repeat split]. }
  destruct (JS.truthy (JS.trim (rf_username form))); cbn [negb].
  2: { split; [discriminate | intros _; repeat split]. }
  split; [|discriminate]. intros _.
  destruct answer as [message | [detail|] | ]; try reflexivity.
  destruct attempt as [message | resp]; [reflexivity|].
  destruct (loginAndRender resp b) as [[r0|e] b']; reflexivity.
Qed.

Lemma registerSubmit_validation_witness :
  rr_request (fst (registerSubmit carolForm RegisterCreated
                     (LoginAnswered (LoginAccepted bobLogin)) emptyBrowser))
  = Some (mkRegisterRequest "carol" None "s3cret").
Proof.
  apply (proj1 (registerSubmit_validation carolForm RegisterCreated
                  (LoginAnswered (LoginAccepted bobLogin)) emptyBrowser)).
  reflexivity.
Defined.

(** X21.  What follows a registration request.  If the user is not
    created, [login] is not called, the form does not navigate, the browser
    state is as before and an error text that is not empty is shown.  If
    the user is created, [login] is called: when it succeeds the form
    navigates to "/" without error and the browser state is that of the
    login; when it fails the form navigates to "/?registered=true" and
    shows an error text that is not empty. *)
Theorem registerSubmit_outcome :
  forall (form : RegisterForm) (answer : RegisterAnswer)
         (attempt : LoginAttempt) (b : Browser),
    rr_request (fst (registerSubmit form answer attempt b)) <> None ->
    let r := registerSubmit form answer attempt b in
    (answer <> RegisterCreated ->
       rr_loginCalled (fst r) = false /\ rr_navigate (fst r) = None
       /\ snd r = b
       /\ exists text, rr_error (fst r) = Some text /\ text <> "")
    /\ (answer = RegisterCreated ->
          rr_loginCalled (fst r) = true
          /\ (forall data, attempt = LoginAnswered (LoginAccepted data) ->
                rr_navigate (fst r) = Some "/" /\ rr_error (fst r) = None
                /\ (Normal tt, snd r) = loginAndRender (LoginAccepted data) b)
          /\ ((forall data, attempt <> LoginAnswered (LoginAccepted data)) ->
                rr_navigate (fst r) = Some "/?registered=true"
                /\ snd r = b
                /\ exists text, rr_error (fst r) = Some text /\ text <> "")).
Proof.
  intros form answer attempt b Hsent r. unfold r in *. clear r.
  unfold registerSubmit in *.
  destruct (negb (String.eqb (rf_password form) (rf_confirmPassword form)));
    [now contradiction Hsent|].
  destruct (String.length (rf_password form) <? 3)%nat;
    [now contradiction Hsent|].
  destruct (negb (JS.truthy (JS.trim (rf_username form))));
    [now contradiction Hsent|].
  clear Hsent. split.
  - intros Hne. destruct answer as [message | [detail|] | ];
      [| | |now contradiction Hne]; cbn [fst snd rr_loginCalled rr_navigate rr_error];
      repeat split; eexists; (split; [reflexivity|]).
    + unfold orElse. destruct message; discriminate.
    + unfold orElse. destruct detail as [[|c d]|]; cbn; discriminate.
    + discriminate.
  - intros ->. destruct attempt as [message | [detail | data]].
    + cbn. split; [reflexivity|]. split.
      * intros data H. discriminate H.
      * intros _. split; [reflexivity|]. split; [reflexivity|].
        eexists. split; [reflexivity|]. unfold orElse.
        destruct message; discriminate.
    + cbn. split; [reflexivity|]. split.
      * intros data H. discriminate H.
      * intros _. split; [reflexivity|]. split; [reflexivity|].
        eexists. split; [reflexivity|]. unfold orElse.
        destruct detail as [[|c d]|]; cbn; discriminate.
    + cbn [loginAndRender login fst snd rr_loginCalled rr_navigate rr_error].
      split; [reflexivity|]. split.
      * intros data' H. injection H as <-. repeat split.
      * intros H. now contradiction (H data).
Qed.

Lemma registerSubmit_outcome_witness :
  rr_navigate (fst (registerSubmit carolForm RegisterCreated
                      (LoginAnswered (LoginRefused None)) emptyBrowser))
  = Some "/?registered=true".
Proof.
  apply (proj2 (registerSubmit_outcome carolForm RegisterCreated
                  (LoginAnswered (LoginRefused None)) emptyBrowser
                  ltac:(discriminate)) eq_refl).
  intros data H. discriminate H.
Defined.

(** ** The switches of the sidebar *)

Lemma sidebarStep_debug_off (s : Settings) (e : SidebarEvent) :
  e <> DebugSwitch true ->
  st_debugMode s = Some false -> st_autoApprove s = Some true ->
  st_debugMode (sidebarStep s e) = Some false
  /\ st_autoApprove (sidebarStep s e) = Some true.
Proof.
  intros He Hd Ha. destruct e as [ | w | [|] | checked]; cbn.
  - now split.
  - destruct (w <=? 900)%Z; now split.
  - now contradiction He.
  - now split.
  - rewrite Hd. cbn. now split.
Qed.

(** X22.  Switching debug mode off switches auto-approve on, and it stays
    on: whatever is clicked afterwards, as long as debug mode is not
    switched on again, debug mode is off and auto-approve is on. *)
Theorem debug_off_forces_auto_approve :
  forall (s : Settings) (es : list SidebarEvent),
    keepsDebugOff es ->
    let s' := runSidebar es (sidebarStep s (DebugSwitch false)) in
    st_debugMode s' = Some false /\ st_autoApprove s' = Some true.
Proof.
  intros s es Hes. cbn zeta. unfold runSidebar.
  assert (H0 : st_debugMode (sidebarStep s (DebugSwitch false)) = Some false
               /\ st_autoApprove (sidebarStep s (DebugSwitch false)) = Some true)
    by (split; reflexivity).
  revert H0. generalize (sidebarStep s (DebugSwitch false)) as s0.
  induction Hes as [|e es He Hes IH]; intros s0 [Hd Ha]; [now split|].
  cbn [fold_left]. apply IH. now apply sidebarStep_debug_off.
Qed.

Lemma debug_off_forces_auto_approve_witness :
  st_autoApprove
    (runSidebar [AutoApproveSwitch false; ToggleSidebar; ChatSelected 800]
       (sidebarStep (mkSettings None None None) (DebugSwitch false)))
  = Some true.
Proof.
  apply (debug_off_forces_auto_approve (mkSettings None None None)
           [AutoApproveSwitch false; ToggleSidebar; ChatSelected 800]).
  repeat constructor; discriminate.
Defined.

(** ** The date label of the history list *)

(** X23.  The label of a chat by the age of its last update: "today" for
    less than one day, "yesterday" from one day to less than two, the
    number of days from two to less than seven days, the short date from
    seven days on; a time stamp in the future is labelled with a negative
    number of days. *)
Theorem formatDate_buckets :
  forall (nowMs timestamp : Z),
    let age := (nowMs - timestamp)%Z in
    (formatDate nowMs timestamp = Today <-> (0 <= age < msPerDay)%Z)
    /\ (formatDate nowMs timestamp = Yesterday
        <-> (msPerDay <= age < 2 * msPerDay)%Z)
    /\ (formatDate nowMs timestamp = ShortDate timestamp
        <-> (7 * msPerDay <= age)%Z)
    /\ ((2 * msPerDay <= age < 7 * msPerDay)%Z ->
        exists k, formatDate nowMs timestamp = DaysAgo k /\ (2 <= k <= 6)%Z)
    /\ ((age < 0)%Z ->
        exists k, formatDate nowMs timestamp = DaysAgo k /\ (k < 0)%Z).
Proof.
  intros nowMs timestamp age. unfold formatDate. fold age.
  assert (Hpos : (0 < msPerDay)%Z) by reflexivity.
  pose proof (Z.div_mod age msPerDay ltac:(lia)) as Hdm.
  pose proof (Z.mod_pos_bound age msPerDay Hpos) as Hmod.
  set (days := (age / msPerDay)%Z) in *.
  set (rest := (age mod msPerDay)%Z) in *.
  change msPerDay with 86400000%Z in *.
  destruct (days =? 0)%Z eqn:H0; [apply Z.eqb_eq in H0 | apply Z.eqb_neq in H0].
  { repeat split; try discriminate; try lia; intros H; exfalso; lia. }
  destruct (days =? 1)%Z eqn:H1; [apply Z.eqb_eq in H1 | apply Z.eqb_neq in H1].
  { repeat split; try discriminate; try lia; intros H; exfalso; lia. }
  destruct (days <? 7)%Z eqn:H7; [apply Z.ltb_lt in H7 | apply Z.ltb_ge in H7].
  - repeat split; try discriminate; try lia.
    + intros H. exists days. split; [reflexivity | lia].
    + intros H. exists days. split; [reflexivity | lia].
  - repeat split; try discriminate; try lia; intros H; exfalso; lia.
Qed.

(** ** The handlers of the history list *)

Lemma deleteChat_view (env : CallEnv) (T : string) (b : Browser) :
  (List.length (chats b) <= MAX_CHATS)%nat ->
  chats (deleteChat env T b) = filter (notThread T) (chats b).
Proof.
  intros Hlen. unfold deleteChat, commitChats. cbn [chats].
  rewrite deleteChatList_spec. apply firstn_all2.
  pose proof (filter_length_le (notThread T) (chats b)). lia.
Qed.

(** X24.  Saving an edited title closes the editor.  A blank title leaves
    the store untouched.  Otherwise the thread, stored once in a sorted
    store within the cap, gets the typed title without the white space
    around it, and the records of the other threads stay as they were. *)
Theorem handleEditSave_stores_trimmed_title :
  forall (env : CallEnv) (T : string) (ui : HistoryListUi) (b : Browser),
    let r := handleEditSave env T ui b in
    editingChatId (fst r) = None
    /\ editTitle (fst r) = ""
    /\ (JS.trim (editTitle ui) = "" -> snd r = b)
    /\ (JS.trim (editTitle ui) <> "" ->
        forall old,
          Sorted descByUpdated (chats b) ->
          (List.length (chats b) <= MAX_CHATS)%nat ->
          filter (isThread T) (chats b) = [old] ->
          filter (isThread T) (chats (snd r))
          = [mkChat (threadId old) (JS.trim (editTitle ui)) (createdAt old)
               (now env) (firstMessage old)]
          /\ JS.trim (JS.trim (editTitle ui)) = JS.trim (editTitle ui)
          /\ filter (notThread T) (chats (snd r))
             = filter (notThread T) (chats b)).
Proof.
  intros env T ui b r. unfold r, handleEditSave. cbn [fst snd].
  split; [reflexivity|]. split; [reflexivity|]. split.
  - intros ->. reflexivity.
  - intros Hne old Hs Hlen Hold. apply truthy_true_iff in Hne. rewrite Hne.
    destruct (updateChatTitle_stored_thread env T (JS.trim (editTitle ui)) b old
                Hs Hlen Hold) as (H1 & H2 & _).
    split; [exact H1|]. split; [apply trim_idempotent | exact H2].
Qed.

(** X25.  As [App] mounts the list, [useParams] gives it no [threadId].
    Confirming the deletion of a thread (with an identifier that is not
    empty) in a store within the cap then removes the thread from the view,
    keeps the other records in their order and closes the dialog, and it
    does not navigate, whichever thread is deleted.  Without a thread
    chosen the confirmation does nothing. *)
Theorem handleDeleteConfirm_removes_without_navigating :
  forall (env : CallEnv) (T : string) (ui : HistoryListUi) (b : Browser),
    T <> "" ->
    (List.length (chats b) <= MAX_CHATS)%nat ->
    routeThreadId ui = None ->
    let r := handleDeleteConfirm env (handleDeleteClick T ui) b in
    chats (snd r) = filter (notThread T) (chats b)
    /\ ~ In T (map threadId (chats (snd r)))
    /\ (forall c, In c (chats b) -> threadId c <> T -> In c (chats (snd r)))
    /\ deleteDialogOpen (fst r) = false
    /\ chatToDelete (fst r) = None
    /\ hl_navigated (fst r) = hl_navigated ui
    /\ (chatToDelete ui = None -> handleDeleteConfirm env ui b = (ui, b)).
Proof.
  intros env T ui b HT Hlen Hroute r.
  unfold r, handleDeleteConfirm, handleDeleteClick.
  cbn [chatToDelete editingChatId editTitle routeThreadId hl_navigated].
  apply truthy_true_iff in HT. rewrite HT, Hroute. cbn [fst snd].
  rewrite (deleteChat_view env T b Hlen). repeat split.
  - apply filter_notThread_ids.
  - intros c Hc Hne. apply filter_In. split; [exact Hc|].
    unfold notThread, isThread. apply negb_true_iff.
    now apply String.eqb_neq.
  - intros ->. reflexivity.
Qed.

Lemma handleDeleteConfirm_removes_without_navigating_witness :
  chats (snd (handleDeleteConfirm (envAt 30)
                (handleDeleteClick "thread-1" listInSidebar) aliceRenamed))
  = filter (notThread "thread-1") (chats aliceRenamed)
  /\ hl_navigated (fst (handleDeleteConfirm (envAt 30)
                          (handleDeleteClick "thread-1" listInSidebar)
                          aliceRenamed))
     = None.
Proof.
  destruct (handleDeleteConfirm_removes_without_navigating (envAt 30)
              "thread-1" listInSidebar aliceRenamed)
    as (Hview & _ & _ & _ & _ & Hnav & _).
  - discriminate.
  - vm_compute. lia.
  - reflexivity.
  - split; [exact Hview | exact Hnav].
Defined.

(** ** How [Chat] and the sidebar feed the store *)

Lemma lastOf_snoc {A} (l : list A) (x : A) : lastOf (l ++ [x]) = Some x.
Proof.
  induction l as [|y l IH]; [reflexivity|].
  cbn [app lastOf]. destruct (l ++ [x]) eqn:E; [|exact IH].
  destruct l; discriminate E.
Qed.

Lemma lastOf_human_message (before after : list Message) (m : Message) :
  isHuman (msg_type m) = true ->
  humanMessages after = [] ->
  lastOf (humanMessages (before ++ m :: after)) = Some m.
Proof.
  intros Hm Hafter. unfold humanMessages in *.
  rewrite filter_app. cbn [filter]. rewrite Hm, Hafter. apply lastOf_snoc.
Qed.

Lemma slice0_all (n : nat) (s : string) :
  (String.length s <= n)%nat -> JS.slice0 n s = s.
Proof.
  revert s. induction n as [|n IH]; intros [|c r] H; cbn in *;
    try reflexivity; try lia.
  f_equal. apply IH. lia.
Qed.

(** X26.  The title of the open thread follows the latest human message:
    whatever the agent and the tools say after it, the effect of [Chat]
    writes the record of the thread with the title derived from that
    message (its text without task tags, trimmed, cut to 100 code units, or
    the dated placeholder when nothing is left).  Without a human message
    the store is not touched. *)
Theorem chatTitleEffect_follows_last_human_message :
  forall (env : CallEnv) (T : string) (before after : list Message)
         (m : Message) (b : Browser),
    T <> "" ->
    NoDup (map threadId (chats b)) ->
    isHuman (msg_type m) = true ->
    humanMessages after = [] ->
    let text := messageText (msg_content m) in
    let b' := chatTitleEffect env (Some T) (before ++ m :: after) b in
    (forall r, In r (chats b') -> threadId r = T ->
       (JS.trim text <> "" -> cleanMessage text <> "" ->
          title r = JS.slice0 100 (cleanMessage text))
       /\ (JS.trim text = "" \/ cleanMessage text = "" ->
             title r = placeholderTitle (today env)))
    /\ (forall others, humanMessages others = [] ->
          chatTitleEffect env (Some T) others b = b).
Proof.
  intros env T before after m b HT Hnd Hm Hafter text b'.
  assert (Hb' : b' = saveChat env T (Some text) None b).
  { unfold b', chatTitleEffect. cbn [JS.truthy_opt orEmpty].
    apply truthy_true_iff in HT. rewrite HT.
    rewrite (lastOf_human_message before after m Hm Hafter).
    rewrite length_app. cbn [List.length].
    replace (0 <? List.length before + S (List.length after))%nat with true
      by (symmetry; apply Nat.ltb_lt; lia).
    reflexivity. }
  split.
  - intros r Hin Ht. rewrite Hb' in Hin.
    rewrite (saveChat_record_title env T (Some text) None b r Hnd Hin Ht).
    split.
    + intros Hne Hclean.
      apply (saveChatTitle_preview (today env) (Some text) None text);
        auto. intros s H. discriminate H.
    + intros Hbad. apply saveChatTitle_placeholder.
      * intros s H. discriminate H.
      * destruct Hbad as [Hblank | Hclean].
        -- left. intros s [= <-]. exact Hblank.
        -- right. now exists text.
  - intros others Hnone. unfold chatTitleEffect. rewrite Hnone.
    cbn [lastOf]. now case_if.
Qed.

Lemma chatTitleEffect_follows_last_human_message_witness :
  title (mkChat "thread-1" "plan a trip" 30 30 (Some "<task>plan a trip</task>"))
  = JS.slice0 100 (cleanMessage "<task>plan a trip</task>").
Proof.
  apply (proj1 (chatTitleEffect_follows_last_human_message (envAt 30) "thread-1"
                  [humanSays "first"] [toolCalls "search"]
                  (humanSays "<task>plan a trip</task>") aliceBrowser
                  ltac:(discriminate) (NoDup_nil _) eq_refl eq_refl)
           (mkChat "thread-1" "plan a trip" 30 30
              (Some "<task>plan a trip</task>"))
           (or_introl eq_refl) eq_refl);
    discriminate.
Defined.

(** X27.  "New chat" over a chat with a human message opens the save
    dialog with the cleaned message as the title; confirming it as it
    stands, for a cleaned message that is not empty and at most 100 code
    units long, stores the thread under exactly that text, closes the
    dialog, navigates to "/" and starts the new chat once.  Without a
    current chat "new chat" navigates and starts the new chat at once. *)
Theorem new_chat_dialog_stores_cleaned_title :
  forall (env : CallEnv) (T firstMsg : string) (b : Browser) (r : SavedChat),
    NoDup (map threadId (chats b)) ->
    cleanMessage firstMsg <> "" ->
    (String.length (cleanMessage firstMsg) <= 100)%nat ->
    let ui := handleNewChat (Some (T, firstMsg)) freshSidebar in
    let done := handleSaveDialogConfirm env ui b in
    In r (chats (snd done)) -> threadId r = T ->
    saveDialogOpen ui = true
    /\ chatTitle ui = cleanMessage firstMsg
    /\ title r = cleanMessage firstMsg
    /\ saveDialogOpen (fst done) = false
    /\ sb_navigated (fst done) = Some "/"
    /\ newChatCalls (fst done) = 1%nat
    /\ handleNewChat None freshSidebar = mkSidebarUi false None "" (Some "/") 1.
Proof.
  intros env T firstMsg b r Hnd Hne Hlen ui done Hin Ht.
  assert (Htitle : chatTitle ui = cleanMessage firstMsg)
    by (unfold ui, handleNewChat; cbn [chatTitle snd]; now apply slice0_all).
  assert (Htrim : JS.trim (cleanMessage firstMsg) = cleanMessage firstMsg)
    by (unfold cleanMessage; apply trim_idempotent).
  repeat split; try reflexivity; try exact Htitle.
  unfold done, handleSaveDialogConfirm in Hin. cbn [snd] in Hin.
  change (pendingChatInfo ui) with (Some (T, firstMsg)) in Hin.
  cbn iota in Hin. rewrite Htitle, Htrim in Hin.
  apply truthy_true_iff in Hne. rewrite Hne in Hin.
  rewrite (saveChat_record_title env T _ _ b r Hnd Hin Ht).
  apply truthy_true_iff in Hne.
  rewrite (saveChatTitle_explicit (today env) (Some firstMsg)
             (Some (cleanMessage firstMsg)) (cleanMessage firstMsg) eq_refl);
    rewrite Htrim; [now apply slice0_all | assumption].
Qed.

Lemma new_chat_dialog_stores_cleaned_title_witness :
  title (mkChat "thread-7" "plan" 30 30 (Some "<task>plan</task>")) = "plan".
Proof.
  apply (new_chat_dialog_stores_cleaned_title (envAt 30) "thread-7"
           "<task>plan</task>" aliceBrowser
           (mkChat "thread-7" "plan" 30 30 (Some "<task>plan</task>"))
           (NoDup_nil _) ltac:(discriminate) ltac:(vm_compute; lia)
           (or_introl eq_refl) eq_refl).
Defined.

(** ** The store invariant over every call that touches it *)

Lemma storeOk_nil : storeOk [].
Proof.
  repeat split; cbn; try constructor. unfold MAX_CHATS. lia.
Qed.

Lemma storeStep_ok (b : Browser) (e : StoreEvent) :
  browserOk b -> browserOk (storeStep b e).
Proof.
  intros Hb. destruct e as [em | | | resp | | ]; cbn [storeStep].
  - now apply applyMutation_ok.
  - split; [apply storeOk_nil | exact I].
  - now apply historyEffect_ok.
  - destruct resp as [detail | data]; [exact Hb|].
    cbn [loginAndRender login snd]. apply historyEffect_ok.
    destruct Hb as [Hmem Hdisk]. split; [exact Hmem|].
    cbn [storage ls_chat_history].
    destruct (_ && _); [exact I | exact Hdisk].
  - unfold logoutAndRender. destruct (user (auth b)).
    + apply historyEffect_ok. split; [apply Hb | exact I].
    + split; [apply Hb | exact I].
  - unfold verifyTokenRejectedAndRender. destruct (user (auth b)).
    + apply historyEffect_ok. exact Hb.
    + exact Hb.
Qed.

(** X28.  The invariant of the store survives every call that touches it,
    not only the three mutations: after any sequence of mutations,
    [clearHistory], reloads, logins (accepted or refused), logouts and
    rejected tokens, the view and the durable record hold at most
    [MAX_CHATS] records, sorted descending by [updatedAt], with no
    [threadId] twice. *)
Theorem store_invariant_over_sessions :
  forall (es : list StoreEvent) (b : Browser),
    browserOk b ->
    let b' := runStore es b in
    (List.length (chats b') <= 50)%nat
    /\ Sorted descByUpdated (chats b')
    /\ NoDup (map threadId (chats b'))
    /\ match ls_chat_history (storage b') with
       | Some l => storeOk l
       | None => True
       end.
Proof.
  intros es b Hb. cbn zeta.
  assert (H : browserOk (runStore es b)).
  { unfold runStore. revert b Hb.
    induction es as [|e es IH]; intros b Hb; [exact Hb|].
    cbn [fold_left]. apply IH. now apply storeStep_ok. }
  destruct H as [(H1 & H2 & H3) H4]. repeat split; assumption.
Qed.

Lemma store_invariant_over_sessions_witness :
  (List.length
     (chats (runStore [Mutate (newThread 1); LogoutEvent;
                       LoginEvent (LoginAccepted bobLogin);
                       Mutate (newThread 2); TokenRejectedEvent]
               aliceBrowser)) <= 50)%nat.
Proof.
  apply (store_invariant_over_sessions
           [Mutate (newThread 1); LogoutEvent;
            LoginEvent (LoginAccepted bobLogin);
            Mutate (newThread 2); TokenRejectedEvent] aliceBrowser).
  repeat split; cbn; try constructor. unfold MAX_CHATS. lia.
Defined.

(** ** Thread-id assignment: the debug message *)

(** X29.  [onThreadId] adds a debug message exactly when the registry call
    is made, is answered with 2xx and a readable body, and debug mode is
    on; it then adds one message, last, carrying the thread, the clock
    reading and the answer.  In every other case the debug messages are
    left as they are. *)
Theorem onThreadId_debug_message :
  forall (env : CallEnv) (debug : bool) (net : FetchOutcome) (tid : string)
         (p : ChatPage),
    debugMessages (snd (onThreadId env debug net tid p))
    = match net with
      | FetchResponse true _ (Some data) =>
          if registrationAttempted (auth (browser p)) && debug
          then debugMessages p ++ [mkDebugMessage tid (now env) data]
          else debugMessages p
      | _ => debugMessages p
      end.
Proof.
  intros env debug net tid p.
  unfold onThreadId, bind, setCurrentThreadId, onThreadIdChange, navigate,
    saveChatInPage, update. cbn [fst snd browser auth saveChat commitChats].
  destruct (registrationAttempted (auth (browser p))).
  - destruct net as [reason | ok status body]; [reflexivity|].
    destruct ok, body as [j|], debug; reflexivity.
  - destruct net as [reason | [|] status [j|]]; reflexivity.
Qed.

(** ** What the save dialog is about *)

Lemma find_first_human (before after : list Message) (m : Message) :
  humanMessages before = [] ->
  isHuman (msg_type m) = true ->
  find (fun msg => isHuman (msg_type msg)) (before ++ m :: after) = Some m.
Proof.
  intros Hb Hm. induction before as [|x l IH]; cbn [app find].
  - now rewrite Hm.
  - unfold humanMessages in Hb. cbn [filter] in Hb.
    destruct (isHuman (msg_type x)); [discriminate Hb|]. now apply IH.
Qed.

Lemma find_no_human (messages : list Message) :
  humanMessages messages = [] ->
  find (fun msg => isHuman (msg_type msg)) messages = None.
Proof.
  unfold humanMessages. induction messages as [|x l IH]; [reflexivity|].
  cbn [filter find]. destruct (isHuman (msg_type x)); [discriminate | exact IH].
Qed.

(** X30.  [getCurrentChatInfo] offers a chat to save only when there is a
    thread, its identifier is not empty and it holds a human message; the
    chat offered is the current thread with the text of its first human
    message, whatever follows it. *)
Theorem getCurrentChatInfo_first_human_message :
  forall (T : string) (before after : list Message) (m : Message),
    T <> "" ->
    humanMessages before = [] ->
    isHuman (msg_type m) = true ->
    getCurrentChatInfo (Some (before ++ m :: after)) (Some T)
    = Some (T, messageText (msg_content m))
    /\ (forall messages current,
          getCurrentChatInfo None current = None
          /\ getCurrentChatInfo (Some messages) None = None
          /\ getCurrentChatInfo (Some messages) (Some "") = None
          /\ (humanMessages messages = [] ->
              getCurrentChatInfo (Some messages) current = None)).
Proof.
  intros T before after m HT Hb Hm. split.
  - unfold getCurrentChatInfo. cbn [JS.truthy_opt orEmpty].
    apply truthy_true_iff in HT. rewrite HT. cbn [negb].
    now rewrite (find_first_human before after m Hb Hm).
  - intros messages current. repeat split.
    intros Hnone. unfold getCurrentChatInfo.
    rewrite (find_no_human messages Hnone). now case_if.
Qed.

Lemma getCurrentChatInfo_first_human_message_witness :
  getCurrentChatInfo
    (Some ([toolCalls "search"] ++ humanSays "first" :: [humanSays "second"]))
    (Some "thread-1")
  = Some ("thread-1", "first").
Proof.
  apply (getCurrentChatInfo_first_human_message "thread-1"
           [toolCalls "search"] [humanSays "second"] (humanSays "first")).
  - discriminate.
  - reflexivity.
  - reflexivity.
Defined.
